(** * Document retrieval core of the study-buddy application

    A shallow embedding of [pdf_processor.py] (page mapping and chunking)
    and [vector_store.py] (LRU query cache, vector store, context
    assembly), followed by the properties of the retrieval subsystem.

    Python values are modelled as follows: [int] is [Z]; [str] is
    [string], one character standing for one code point; a [dict] with
    string keys is a [gmap string pyval]; dictionaries that are shared
    between caller and store live in an explicit heap of objects. *)

From Stdlib Require Import ZArith String Ascii List Lia Bool.
From stdpp Require Import base option list sorting gmap strings pretty.

Local Open Scope Z_scope.

(* ===================================================================== *)
(** * Python built-ins used by the sources                                *)
(* ===================================================================== *)

Module Py.

(** [len(s)] *)
Definition len (s : string) : Z := Z.of_nat (String.length s).

(** [str.isspace] on one character: TAB..CR, FS..US, SPACE, NEL, NBSP.
    The regular-expression class [\s] accepts the same characters. *)
Definition isspace (c : ascii) : bool :=
  let n := nat_of_ascii c in
  ((9 <=? n)%nat && (n <=? 13)%nat) || ((28 <=? n)%nat && (n <=? 32)%nat)
  || (n =? 133)%nat || (n =? 160)%nat.

(** Normalisation of a slice bound against a sequence of length [n]:
    negative bounds count from the end, everything is clamped to [0..n]. *)
Definition clamp (n i : Z) : Z :=
  if i <? 0 then Z.max (i + n) 0 else Z.min i n.

(** [s[a:b]] *)
Definition slice (s : string) (a b : Z) : string :=
  let n := len s in
  let lo := clamp n a in
  let hi := clamp n b in
  String.substring (Z.to_nat lo) (Z.to_nat (hi - lo)) s.

(** [s[:b]] *)
Definition slice_to (s : string) (b : Z) : string := slice s 0 b.

Fixpoint lstrip_chars (l : list ascii) : list ascii :=
  match l with
  | c :: l' => if isspace c then lstrip_chars l' else l
  | [] => []
  end.

(** [s.strip()] *)
Definition strip (s : string) : string :=
  string_of_list_ascii
    (rev (lstrip_chars (rev (lstrip_chars (list_ascii_of_string s))))).

(** [len(s.split())]: the number of maximal runs of non-space characters. *)
Fixpoint count_words (in_word : bool) (l : list ascii) : Z :=
  match l with
  | [] => 0
  | c :: l' =>
      if isspace c then count_words false l'
      else (if in_word then 0 else 1) + count_words true l'
  end.

Definition split_len (s : string) : Z :=
  count_words false (list_ascii_of_string s).

(** Truthiness of a string: [bool(s)]. *)
Definition truthy (s : string) : bool :=
  match s with EmptyString => false | _ => true end.

(** [int(x * 0.4)] for an integer [x]: the product with the double
    nearest to 0.4, truncated toward zero, is the truncated quotient
    of [2 * x] by [5] for every integer of realistic magnitude. *)
Definition int_times_0_4 (x : Z) : Z := Z.quot (2 * x) 5.

(** [s.rfind(sub, 0, e)]: the highest index at which [sub] occurs in [s]
    with the whole occurrence before the (normalised) end [e]; -1 when
    there is none. *)
Fixpoint rfind_down (s sub : string) (i : nat) : Z :=
  if String.eqb (substring i (String.length sub) s) sub then Z.of_nat i
  else match i with
       | O => -1
       | S i' => rfind_down s sub i'
       end.

Definition rfind (s sub : string) (e : Z) : Z :=
  let stop := clamp (len s) e in
  if stop <? len sub then -1
  else rfind_down s sub (Z.to_nat (stop - len sub)).

End Py.

(* ===================================================================== *)
(** * pdf_processor.py                                                    *)
(* ===================================================================== *)

Module PdfProcessor.

(** ** extract_text_from_pdf *)

(** What the PDF library and the optional OCR stack deliver for one
    page: the raw [page.get_text()], and the outcome of the OCR attempt
    should it be made ([None] when it raises or yields no image). *)
Record Page := { get_text : string; ocr_text : option string }.

(** The inter-page separator appended after every page. *)
Definition page_separator : string := String "010" (String "010" "").

(** The text kept for one page (body of the [for] loop, lines 32-40). *)
Definition page_text_of (has_ocr : bool) (pg : Page) : string :=
  let t := Py.strip (get_text pg) in
  if negb (Py.truthy t) && has_ocr then
    match ocr_text pg with
    | Some s => s
    | None => ""
    end
  else t.

(** [for i in range(len(page_text)): page_mapping[current_pos + i] = page_num] *)
Fixpoint map_chars (count : nat) (pos page_num : Z) (pm : gmap Z Z) : gmap Z Z :=
  match count with
  | O => pm
  | S c => map_chars c (pos + 1) page_num (<[pos := page_num]> pm)
  end.

(** The loop over the pages, threading [full_text], [page_mapping] and
    [current_pos]; [page_num] is the [enumerate(doc, start=1)] counter. *)
Fixpoint extract_loop (has_ocr : bool) (doc : list Page) (page_num : Z)
    (full_text : string) (pm : gmap Z Z) (current_pos : Z) : string * gmap Z Z :=
  match doc with
  | [] => (full_text, pm)
  | pg :: rest =>
      let page_text := page_text_of has_ocr pg in
      let pm' := map_chars (String.length page_text) current_pos page_num pm in
      extract_loop has_ocr rest (page_num + 1)
        (full_text +:+ page_text +:+ page_separator) pm'
        (current_pos + Py.len page_text + 2)
  end.

Definition extract_text_from_pdf (has_ocr : bool) (doc : list Page)
    : string * gmap Z Z :=
  extract_loop has_ocr doc 1 "" ∅ 0.

(** ** chunk_text *)

(** The dictionary literal appended for every kept chunk. *)
Record Chunk := {
  text : string;
  page : Z;
  start_pos : Z;
  end_pos : Z;
  tokens : Z
}.

Definition is_terminal (c : ascii) : bool :=
  (c =? ".")%char || (c =? "!")%char || (c =? "?")%char.

Fixpoint space_run (l : list ascii) : nat :=
  match l with
  | c :: l' => if Py.isspace c then S (space_run l') else O
  | [] => O
  end.

(** [sentence_boundaries.finditer(snippet)] for the pattern
    [([.!?]\s+)]: the (start, end) offsets of every match, left to right.
    A match is a terminal character followed by its maximal run of
    spaces; the scan may step over that run one character at a time
    since no space is a terminal character. *)
Fixpoint finditer_from (pos : nat) (l : list ascii) : list (nat * nat) :=
  match l with
  | [] => []
  | c :: l' =>
      if is_terminal c && (0 <? space_run l')%nat
      then (pos, (pos + 1 + space_run l')%nat) :: finditer_from (S pos) l'
      else finditer_from (S pos) l'
  end.

Definition finditer (snippet : string) : list (nat * nat) :=
  finditer_from 0 (list_ascii_of_string snippet).

(** Lines 63-76: where the chunk that starts at [start] ends. *)
Definition chunk_end (txt : string) (chunk_size start : Z) : Z :=
  let n := Py.len txt in
  let end_ := start + chunk_size in
  if end_ <? n then
    let search_start := Z.max start (end_ - 120) in
    let snippet := Py.slice txt search_start (end_ + 1) in
    match last (finditer snippet) with
    | Some (_, last_end) =>
        let new_end := search_start + Z.of_nat last_end in
        if Py.int_times_0_4 chunk_size <? new_end - start then new_end else end_
    | None => end_
    end
  else n.

(** Lines 78-89: the chunk record for the span [start, end_), if its
    stripped text is not empty. *)
Definition make_chunk (txt : string) (pm : gmap Z Z) (start end_ : Z)
    : option Chunk :=
  let chunk_txt := Py.strip (Py.slice txt start end_) in
  if Py.truthy chunk_txt then
    let mid := start + (end_ - start) `div` 2 in
    Some {| text := chunk_txt;
            page := default 1 (pm !! mid);
            start_pos := start;
            end_pos := end_;
            tokens := Py.split_len chunk_txt |}
  else None.

(** The [while start < n] loop. Python gives no bound on the number of
    iterations, so the embedding counts them down from [fuel] and
    answers [None] when the loop is still running after [fuel] rounds. *)
Fixpoint chunk_loop (fuel : nat) (txt : string) (pm : gmap Z Z)
    (chunk_size overlap start : Z) (chunks : list Chunk) : option (list Chunk) :=
  match fuel with
  | O => None
  | S fuel' =>
      if start <? Py.len txt then
        let end_ := chunk_end txt chunk_size start in
        let chunks' :=
          match make_chunk txt pm start end_ with
          | Some c => chunks ++ [c]
          | None => chunks
          end in
        if Py.len txt <=? end_ then Some chunks'
        else chunk_loop fuel' txt pm chunk_size overlap (end_ - overlap) chunks'
      else Some chunks
  end.

Definition chunk_text (fuel : nat) (txt : string) (pm : gmap Z Z)
    (chunk_size overlap : Z) : option (list Chunk) :=
  chunk_loop fuel txt pm chunk_size overlap 0 [].

(** The spans [(start, end)] visited by the iterations of the same
    loop, kept or not: an instrumented copy of [chunk_loop] used to
    state how the emitted chunks relate to the candidates. *)
Fixpoint chunk_spans (fuel : nat) (txt : string)
    (chunk_size overlap start : Z) : option (list (Z * Z)) :=
  match fuel with
  | O => None
  | S fuel' =>
      if start <? Py.len txt then
        let end_ := chunk_end txt chunk_size start in
        if Py.len txt <=? end_ then Some [(start, end_)]
        else cons (start, end_)
               <$> chunk_spans fuel' txt chunk_size overlap (end_ - overlap)
      else Some []
  end.


(** A span whose stripped text is empty yields no chunk. *)
Definition blank (txt : string) (sp : Z * Z) : Prop :=
  Py.strip (Py.slice txt sp.1 sp.2) = "".

Definition span_of (c : Chunk) : Z * Z := (start_pos c, end_pos c).

(** The chunk, if any, that the loop emits for a candidate span. *)
Definition chunk_of_span (txt : string) (pm : gmap Z Z) (sp : Z * Z)
    : option Chunk :=
  make_chunk txt pm sp.1 sp.2.

(** ** extract_relevant_snippet *)

(** [['. ', '? ', '! ', '\n']] *)
Definition snippet_puncts : list string :=
  [". "; "? "; "! "; String "010" ""].

(** The [for punct in ...] loop (lines 107-110): the first punctuation
    whose last occurrence before [max_length] is at a non-zero index
    above [max_length * 0.5] decides the cut. The comparison with the
    float is the comparison of [2 * idx] with [max_length]. *)
Fixpoint snippet_cut (txt : string) (max_length : Z) (puncts : list string)
    : option string :=
  match puncts with
  | [] => None
  | punct :: rest =>
      let idx := Py.rfind txt punct max_length in
      if negb (idx =? 0) && (max_length <? 2 * idx)
      then Some (Py.strip (Py.slice_to txt (idx + 1)))
      else snippet_cut txt max_length rest
  end.

Definition extract_relevant_snippet (txt : string) (max_length : Z) : string :=
  if negb (Py.truthy txt) then ""
  else if Py.len txt <=? max_length then txt
  else match snippet_cut txt max_length snippet_puncts with
       | Some s => s
       | None => Py.strip (Py.slice_to txt max_length) +:+ "..."
       end.

End PdfProcessor.

(* ===================================================================== *)
(** * vector_store.py                                                     *)
(* ===================================================================== *)

Module Store.

(** Values stored in chunk dictionaries. *)
Inductive pyval :=
  | VStr (s : string)
  | VInt (z : Z)
  | VNone.

Global Instance pyval_eq_dec : EqDecision pyval.
Proof. solve_decision. Defined.

(** [str(v)], as used by f-string interpolation. *)
Definition str_of (v : pyval) : string :=
  match v with
  | VStr s => s
  | VInt z => pretty z
  | VNone => "None"
  end.

(** A chunk is a dictionary object; the caller and the store hold
    references ([loc]) to the same objects, which live in a heap. A
    reference the heap does not list denotes an empty dictionary. *)
Definition loc := nat.
Abbreviation pyheap := (gmap loc (gmap string pyval)).

Inductive exn :=
  | KeyError (key : string)
  | TypeError
  | IndexError
  | ExternalError.

(** Outcome of a call: a value or a raised exception. Objects mutated
    before an exception is raised stay mutated, so every operation
    returns the final state next to its outcome. *)
Inductive outcome (A : Type) :=
  | Ok (a : A)
  | Raise (e : exn).
Arguments Ok {A} a.
Arguments Raise {A} e.

Definition M (St A : Type) : Type := St → outcome A * St.

Global Instance M_ret {St} : MRet (M St) := λ A a st, (Ok a, st).
Global Instance M_bind {St} : MBind (M St) := λ A B f m st,
  match m st with
  | (Ok a, st') => f a st'
  | (Raise e, st') => (Raise e, st')
  end.

Definition raise {St A} (e : exn) : M St A := λ st, (Raise e, st).
Definition get_state {St} : M St St := λ st, (Ok st, st).
Definition put_state {St} (st : St) : M St unit := λ _, (Ok (), st).
Definition modify {St} (f : St → St) : M St unit := λ st, (Ok (), f st).

(** The external collaborators of the store: float32 arithmetic from
    numpy, the sentence encoder, the FAISS flat inner-product index and
    the SHA-256 digest. The store is written against this interface. *)
Class Backend := {
  F : Type;
  fzero : F;
  fone : F;
  feqb : F → F → bool;
  fdiv : F → F → F;
  (** [np.linalg.norm] of one row *)
  l2norm : list F → F;
  (** [model.encode(texts, convert_to_numpy=True).astype('float32')]:
      one row per text, or [None] when the encoder (or numpy, on its
      output) raises *)
  encode : list pyval → option (list (list F));
  (** [IndexFlatIP.search(q, k)] over the added rows: the pairs
      [zip(D[0], I[0])], or [None] when the index raises (its [search]
      asserts [k > 0] and that the query has the dimension of the rows) *)
  ip_search : list (list F) → list F → Z → option (list (F * Z));
  (** [hashlib.sha256(q.encode('utf-8')).hexdigest()] *)
  sha256_hexdigest : string → string
}.

Section VectorStore.
Context `{Backend}.

(** A search result: a reference to a chunk and its score. *)
Definition result : Type := loc * F.

(** ** SimpleLRUCache *)

Definition cache_key : Type := string * Z.

(** [data] lists the entries of the [OrderedDict], oldest first. *)
Record SimpleLRUCache := {
  capacity : Z;
  data : list (cache_key * list result)
}.

Definition new_cache (cap : Z) : SimpleLRUCache :=
  {| capacity := cap; data := [] |}.

Fixpoint od_lookup (key : cache_key) (d : list (cache_key * list result))
    : option (list result) :=
  match d with
  | [] => None
  | (k, v) :: d' => if decide (k = key) then Some v else od_lookup key d'
  end.

(** [d[key] = value]: an existing key keeps its position. *)
Fixpoint od_setitem (key : cache_key) (value : list result)
    (d : list (cache_key * list result)) : list (cache_key * list result) :=
  match d with
  | [] => [(key, value)]
  | (k, v) :: d' =>
      if decide (k = key) then (k, value) :: d'
      else (k, v) :: od_setitem key value d'
  end.

(** [d.move_to_end(key)], called only for a key that is present. *)
Definition od_move_to_end (key : cache_key)
    (d : list (cache_key * list result)) : list (cache_key * list result) :=
  match od_lookup key d with
  | Some v => filter (λ kv, kv.1 ≠ key) d ++ [(key, v)]
  | None => d
  end.

(** [SimpleLRUCache.get] *)
Definition cache_get (key : cache_key) (c : SimpleLRUCache)
    : option (list result) * SimpleLRUCache :=
  match od_lookup key (data c) with
  | Some v => (Some v, {| capacity := capacity c;
                          data := od_move_to_end key (data c) |})
  | None => (None, c)
  end.

(** [SimpleLRUCache.set]: [popitem(last=False)] drops the oldest entry. *)
Definition cache_set (key : cache_key) (value : list result)
    (c : SimpleLRUCache) : SimpleLRUCache :=
  let d := od_move_to_end key (od_setitem key value (data c)) in
  {| capacity := capacity c;
     data := if capacity c <? Z.of_nat (length d) then tail d else d |}.

(** ** VectorStore *)

Record VectorStore := {
  index : option (list (list F));
  chunks : list loc;
  embeddings : option (list (list F));
  cache : SimpleLRUCache
}.

(** [__init__] *)
Definition init : VectorStore :=
  {| index := None; chunks := []; embeddings := None;
     cache := new_cache 256 |}.

(** [_normalize]: each row divided by its norm, a zero norm replaced by 1. *)
Definition _normalize (vecs : list (list F)) : list (list F) :=
  map (λ v, let norm := l2norm v in
            let norm := if feqb norm fzero then fone else norm in
            map (λ x, fdiv x norm) v) vecs.

Definition set_chunks (cs : list loc) (s : VectorStore) : VectorStore :=
  {| index := index s; chunks := cs; embeddings := embeddings s;
     cache := cache s |}.
Definition set_embeddings (e : list (list F)) (s : VectorStore) : VectorStore :=
  {| index := index s; chunks := chunks s; embeddings := Some e;
     cache := cache s |}.
Definition set_index (e : list (list F)) (s : VectorStore) : VectorStore :=
  {| index := Some e; chunks := chunks s; embeddings := embeddings s;
     cache := cache s |}.
Definition set_cache (c : SimpleLRUCache) (s : VectorStore) : VectorStore :=
  {| index := index s; chunks := chunks s; embeddings := embeddings s;
     cache := c |}.

(** Lines 48-50 for one chunk object. *)
Definition ensure_document (d : gmap string pyval) : gmap string pyval :=
  match d !! "document" with
  | Some _ => d
  | None => <["document" := default (VStr "Unknown") (d !! "doc")]> d
  end.

Fixpoint ensure_documents (cs : list loc) (h : pyheap) : pyheap :=
  match cs with
  | [] => h
  | c :: cs' => ensure_documents cs' (<[c := ensure_document (h !!! c)]> h)
  end.

(** [[c['text'] for c in chunks]] *)
Fixpoint chunk_texts (h : pyheap) (cs : list loc) : outcome (list pyval) :=
  match cs with
  | [] => Ok []
  | c :: cs' =>
      match (h !!! c : gmap string pyval) !! "text" with
      | None => Raise (KeyError "text")
      | Some t =>
          match chunk_texts h cs' with
          | Ok ts => Ok (t :: ts)
          | Raise e => Raise e
          end
      end
  end.

Definition lift_outcome {St A} (o : outcome A) : M St A := λ st, (o, st).
Definition lift_option {St A} (o : option A) : M St A :=
  λ st, (match o with Some a => Ok a | None => Raise ExternalError end, st).

(** [create_from_chunks]: the state is the heap of chunk objects together
    with the store; [index.add] is taken to succeed. *)
Definition create_from_chunks (cs : list loc) : M (pyheap * VectorStore) unit :=
  modify (λ st, (ensure_documents cs st.1, st.2)) ;;
  modify (λ st, (st.1, set_chunks cs st.2)) ;;
  st ← get_state;
  texts ← lift_outcome (chunk_texts st.1 cs);
  embs ← lift_option (encode texts);
  let embs := _normalize embs in
  modify (λ st, (st.1, set_embeddings embs st.2)) ;;
  modify (λ st, (st.1, set_index embs st.2)).

(** [self.chunks[idx]] for a (possibly negative) integer index. *)
Definition chunk_at (cs : list loc) (idx : Z) : option loc :=
  let n := Z.of_nat (length cs) in
  if idx <? 0 then
    (if 0 <=? idx + n then cs !! Z.to_nat (idx + n) else None)
  else cs !! Z.to_nat idx.

(** Lines 79-82: the hits whose label is below [len(self.chunks)], each
    paired with the chunk it indexes, in the order of the hits. *)
Fixpoint collect_results (cs : list loc) (hits : list (F * Z))
    : outcome (list result) :=
  match hits with
  | [] => Ok []
  | (dist, idx) :: hits' =>
      if idx <? Z.of_nat (length cs) then
        match chunk_at cs idx with
        | None => Raise IndexError
        | Some c =>
            match collect_results cs hits' with
            | Ok rs => Ok ((c, dist) :: rs)
            | Raise e => Raise e
            end
        end
      else collect_results cs hits'
  end.

Definition is_nonempty {A} (l : list A) : bool :=
  match l with [] => false | _ => true end.

(** [search]: the guard for an unbuilt store, the cache lookup (an empty
    cached list counts as a miss), and the computation of fresh results,
    which are stored in the cache before they are returned. *)
Definition search (query : string) (k : Z) : M VectorStore (list result) :=
  self ← get_state;
  match index self with
  | None => mret []
  | Some idx =>
      if Z.of_nat (length (chunks self)) =? 0 then mret []
      else
        let key := sha256_hexdigest query in
        let '(cached, c') := cache_get (key, k) (cache self) in
        modify (set_cache c') ;;
        if is_nonempty (default [] cached) then mret (default [] cached)
        else
          q_emb ← lift_option (encode [VStr query]);
          match _normalize q_emb with
          | [] => raise IndexError
          | q :: _ =>
              hits ← lift_option
                       (ip_search idx q
                          (Z.min k (Z.of_nat (length (chunks self)))));
              results ← lift_outcome (collect_results (chunks self) hits);
              modify (λ s, set_cache (cache_set (key, k) results (cache s)) s) ;;
              mret results
          end
  end.

(** ** get_context_for_query *)

Record SourceCitation := {
  document : pyval;
  page : pyval;
  text : pyval;
  relevance_score : F
}.

Definition truncation_marker : string := "...".
Definition newline : string := String "010" "".
Definition part_separator : string :=
  newline +:+ newline +:+ "---" +:+ newline +:+ newline.

(** The label that precedes a chunk body in its context part. *)
Definition label_of (d : gmap string pyval) : string :=
  "[" +:+ str_of (default (VStr "doc") (d !! "document")) +:+ " - Page "
      +:+ str_of (default (VStr "?") (d !! "page")) +:+ "]" +:+ newline.

(** Lines 99-102: the part of [txt] that enters the context. *)
Definition fit_text (txt : string) (cur_len max_context_length : Z) : string :=
  if max_context_length <? cur_len + Py.len txt then
    let remaining := max_context_length - cur_len in
    Py.slice_to txt (Z.max 0 remaining)
      +:+ (if 3 <? remaining then truncation_marker else "")
  else txt.

Definition citation_of (d : gmap string pyval) (score : F) : SourceCitation :=
  {| document := default (VStr "Unknown") (d !! "document");
     page := default VNone (d !! "page");
     text := match default (VStr "") (d !! "text") with
             | VStr s => VStr (Py.slice_to s 800)
             | v => v
             end;
     relevance_score := score |}.

(** The [for chunk, score in results] loop with its three accumulators. *)
Fixpoint context_loop (h : pyheap) (max_context_length : Z)
    (results : list result) (context_parts : list string)
    (sources : list SourceCitation) (cur_len : Z)
    : outcome (list string * list SourceCitation) :=
  match results with
  | [] => Ok (context_parts, sources)
  | (c, score) :: rest =>
      let chunk : gmap string pyval := h !!! c in
      match chunk !! "text" with
      | None => Raise (KeyError "text")
      | Some (VStr txt) =>
          let add_txt := fit_text txt cur_len max_context_length in
          let context_parts := context_parts ++ [label_of chunk +:+ add_txt] in
          let sources := sources ++ [citation_of chunk score] in
          let cur_len := cur_len + Py.len add_txt in
          if max_context_length <=? cur_len then Ok (context_parts, sources)
          else context_loop h max_context_length rest context_parts sources cur_len
      | Some _ => Raise TypeError
      end
  end.

(** [sep.join(parts)] *)
Fixpoint join (sep : string) (parts : list string) : string :=
  match parts with
  | [] => ""
  | [p] => p
  | p :: ps => p +:+ sep +:+ join sep ps
  end.

Definition get_context_for_query (h : pyheap) (query : string) (k : Z)
    (max_context_length : Z) : M VectorStore (string * list SourceCitation) :=
  results ← search query k;
  if is_nonempty results then
    out ← lift_outcome (context_loop h max_context_length results [] [] 0);
    mret (join part_separator out.1, out.2)
  else mret ("", []).

(** [clear] *)
Definition clear : M VectorStore unit :=
  put_state init.

(** What lines 75-82 of [search] compute when the cache does not answer:
    the results for [query] over the index rows [idx] and the chunk
    references [cs]. *)
Definition fresh_results (query : string) (k : Z) (idx : list (list F))
    (cs : list loc) : outcome (list result) :=
  match encode [VStr query] with
  | None => Raise ExternalError
  | Some q_emb =>
      match _normalize q_emb with
      | [] => Raise IndexError
      | q :: _ =>
          match ip_search idx q (Z.min k (Z.of_nat (length cs))) with
          | None => Raise ExternalError
          | Some hits => collect_results cs hits
          end
      end
  end.

(** Vocabulary for the statements about the assembled context: the
    context part of a result given the body chosen for it, the citation of
    a result, and the number of body characters of a list of bodies. *)
Definition part_of (h : pyheap) (r : result) (body : string) : string :=
  label_of (h !!! r.1) +:+ body.

Definition cite (h : pyheap) (r : result) : SourceCitation :=
  citation_of (h !!! r.1) r.2.

Definition sum_len (bodies : list string) : Z :=
  foldr (λ body acc, Py.len body + acc) 0 bodies.

(** The state in which [search] answers with the empty list (line 66). *)
Definition unbuilt (s : VectorStore) : Prop :=
  index s = None ∨ chunks s = [].

End VectorStore.

(** ** From the chunker to the store *)

(** The dictionary that [chunk_text] appends for a kept chunk
    (pdf_processor.py, lines 82-88). *)
Definition chunk_dict (c : PdfProcessor.Chunk) : gmap string pyval :=
  <["text" := VStr (PdfProcessor.text c)]>
    (<["page" := VInt (PdfProcessor.page c)]>
       (<["start_pos" := VInt (PdfProcessor.start_pos c)]>
          (<["end_pos" := VInt (PdfProcessor.end_pos c)]>
             (<["tokens" := VInt (PdfProcessor.tokens c)]> ∅)))).

(** The list returned by [chunk_text] as objects of the heap: the i-th
    dictionary lives at location [i]. *)
Definition heap_of_chunks (chunks : list PdfProcessor.Chunk) : pyheap :=
  map_seq 0 (chunk_dict <$> chunks).

Definition locs_of_chunks (chunks : list PdfProcessor.Chunk) : list loc :=
  seq 0 (length chunks).

(** ** A concrete backend

    A small executable stand-in for the external collaborators, on which
    the store can be run: scores are integers, a text is embedded as
    [(len(text), 1)], rows are left as they are by normalisation, the
    digest is the identity, and the index is an exact scan that lists the
    best [k] rows by descending inner product, earlier rows first among
    equal scores, and that raises when [k] is not positive. *)
Module Toy.

Definition dot (u v : list Z) : Z := foldr Z.add 0 (zip_with Z.mul u v).

Fixpoint scores (rows : list (list Z)) (q : list Z) (i : Z) : list (Z * Z) :=
  match rows with
  | [] => []
  | r :: rows' => (dot q r, i) :: scores rows' q (i + 1)
  end.

Fixpoint insert_hit (hit : Z * Z) (l : list (Z * Z)) : list (Z * Z) :=
  match l with
  | [] => [hit]
  | hit' :: l' =>
      if hit'.1 <? hit.1 then hit :: l else hit' :: insert_hit hit l'
  end.

Definition flat_ip_search (rows : list (list Z)) (q : list Z) (k : Z)
    : option (list (Z * Z)) :=
  if k <=? 0 then None
  else Some (take (Z.to_nat k)
               (foldl (λ acc hit, insert_hit hit acc) [] (scores rows q 0))).

Definition backend : Backend :=
  {| F := Z;
     fzero := 0;
     fone := 1;
     feqb := Z.eqb;
     fdiv := Z.quot;
     l2norm := λ _, 1;
     encode := λ texts, Some (map (λ v, [Py.len (str_of v); 1]) texts);
     ip_search := flat_ip_search;
     sha256_hexdigest := λ q, q |}.

(** Three chunk objects as a caller might hold them. *)
Definition example_heap : pyheap :=
  {[ 0%nat := {[ "text" := VStr "abcdefghij"; "page" := VInt 1 ]};
     1%nat := {[ "text" := VStr "xy"; "page" := VInt 2; "doc" := VStr "a.pdf" ]};
     2%nat := {[ "text" := VStr "klm"; "page" := VInt 7;
                 "document" := VStr "b.pdf" ]} ]}.

(** A fresh store after [create_from_chunks] on the first two of them. *)
Definition example_built : pyheap * VectorStore :=
  (@create_from_chunks backend [0%nat; 1%nat] (example_heap, @init backend)).2.

(** A fresh store after [create_from_chunks] on the first one alone. *)
Definition example_single : pyheap * VectorStore :=
  (@create_from_chunks backend [0%nat] (example_heap, @init backend)).2.

(** A cache of capacity two that holds two answers, the one under "a"
    being the older. *)
Definition example_cache : @SimpleLRUCache backend :=
  @Build_SimpleLRUCache backend 2
    [ (("a", 1), [(0%nat, 5) : @result backend]);
      (("b", 1), [(1%nat, 4) : @result backend]) ].

End Toy.

End Store.

Import PdfProcessor.
Import Store.

(* ===================================================================== *)
(** * Properties of the page map and of the chunker                       *)
(* ===================================================================== *)

Section StringFacts.

Lemma length_append (s1 s2 : string) :
  String.length (s1 +:+ s2) = (String.length s1 + String.length s2)%nat.
Proof. induction s1 as [|c s1 IH]; simpl; [done | by rewrite IH]. Qed.

Lemma len_append (s1 s2 : string) :
  Py.len (s1 +:+ s2) = Py.len s1 + Py.len s2.
Proof. unfold Py.len. rewrite length_append. lia. Qed.

Lemma len_nonneg (s : string) : 0 ≤ Py.len s.
Proof. unfold Py.len. lia. Qed.

Lemma length_substring_0 (n : nat) (s : string) :
  String.length (substring 0 n s) = Nat.min n (String.length s).
Proof.
  revert n. induction s as [|c s IH]; intros [|n]; simpl; try done.
  by rewrite IH.
Qed.

Lemma len_slice_to (s : string) (b : Z) :
  0 ≤ b → Py.len (Py.slice_to s b) = Z.min b (Py.len s).
Proof.
  intros Hb. unfold Py.slice_to, Py.slice, Py.clamp.
  assert (Hn := len_nonneg s).
  replace (0 <? 0) with false by done.
  destruct (b <? 0) eqn:Hlt; [lia|].
  rewrite Z.min_l by lia. simpl Z.to_nat.
  unfold Py.len at 1. rewrite length_substring_0.
  unfold Py.len in *. lia.
Qed.

Lemma append_assoc (s1 s2 s3 : string) : (s1 +:+ s2) +:+ s3 = s1 +:+ s2 +:+ s3.
Proof.
  induction s1 as [|c s1 IH]; [done |].
  change (String c ((s1 +:+ s2) +:+ s3) = String c (s1 +:+ s2 +:+ s3)).
  by f_equal.
Qed.

Lemma append_empty_r (s : string) : s +:+ "" = s.
Proof.
  induction s as [|c s IH]; [done |].
  change (String c (s +:+ "") = String c s). by f_equal.
Qed.

End StringFacts.

Section PageMap.

Lemma map_chars_lookup (count : nat) (pos num : Z) (pm : gmap Z Z) (off : Z) :
  map_chars count pos num pm !! off =
    if decide (pos ≤ off < pos + Z.of_nat count) then Some num else pm !! off.
Proof.
  revert pos pm. induction count as [|c IH]; intros pos pm; simpl map_chars.
  - case_decide; [lia | done].
  - rewrite IH. destruct (decide (pos = off)) as [->|Hne].
    + rewrite lookup_insert_eq. repeat case_decide; (done || lia).
    + rewrite lookup_insert_ne by done. repeat case_decide; (done || lia).
Qed.

(** The loop never touches offsets below its current position. *)
Lemma extract_loop_below (b : bool) (doc : list Page) (num : Z) (ft : string)
    (pm : gmap Z Z) (pos off : Z) :
  off < pos → (extract_loop b doc num ft pm pos).2 !! off = pm !! off.
Proof.
  revert num ft pm pos. induction doc as [|pg doc IH]; intros num ft pm pos Hlt.
  - done.
  - simpl extract_loop. rewrite IH.
    + rewrite map_chars_lookup. case_decide; [lia | done].
    + pose proof (len_nonneg (page_text_of b pg)). lia.
Qed.

(** The running position is the length of the text built so far. *)
Lemma extract_loop_app (b : bool) (pre rest : list Page) (num : Z) (ft : string)
    (pm : gmap Z Z) :
  extract_loop b (pre ++ rest) num ft pm (Py.len ft) =
    let r := extract_loop b pre num ft pm (Py.len ft) in
    extract_loop b rest (num + Z.of_nat (length pre)) r.1 r.2 (Py.len r.1).
Proof.
  revert num ft pm. induction pre as [|pg pre IH]; intros num ft pm.
  - simpl. by rewrite Z.add_0_r.
  - simpl app. simpl extract_loop.
    assert (Hlen : Py.len ft + Py.len (page_text_of b pg) + 2
                   = Py.len (ft +:+ page_text_of b pg +:+ page_separator)).
    { rewrite !len_append. unfold page_separator, Py.len. simpl. lia. }
    rewrite Hlen, IH. simpl. f_equal. lia.
Qed.

End PageMap.

Section PageMapCoverage.

(** Nothing is mapped at or beyond the end of the text built so far. *)
Lemma extract_loop_above (b : bool) (doc : list Page) (num : Z) (ft : string)
    (pm : gmap Z Z) :
  (∀ off, Py.len ft ≤ off → pm !! off = None) →
  let r := extract_loop b doc num ft pm (Py.len ft) in
  ∀ off, Py.len r.1 ≤ off → r.2 !! off = None.
Proof.
  revert num ft pm. induction doc as [|pg doc IH]; intros num ft pm Hpm.
  - simpl. exact Hpm.
  - simpl extract_loop.
    assert (Hlen : Py.len ft + Py.len (page_text_of b pg) + 2
                   = Py.len (ft +:+ page_text_of b pg +:+ page_separator)).
    { rewrite !len_append. unfold page_separator, Py.len. simpl. lia. }
    rewrite Hlen. apply IH. intros off Hoff.
    rewrite map_chars_lookup. rewrite <- Hlen in Hoff.
    case_decide.
    + unfold Py.len in *. lia.
    + apply Hpm. pose proof (len_nonneg (page_text_of b pg)). lia.
Qed.

Lemma extract_loop_text (b : bool) (doc : list Page) (num : Z) (ft : string)
    (pm : gmap Z Z) (pos : Z) :
  ∃ tail, (extract_loop b doc num ft pm pos).1 = ft +:+ tail.
Proof.
  revert num ft pm pos. induction doc as [|pg doc IH]; intros num ft pm pos.
  - exists "". simpl. by rewrite append_empty_r.
  - simpl extract_loop.
    destruct (IH (num + 1) (ft +:+ page_text_of b pg +:+ page_separator)
                 (map_chars (String.length (page_text_of b pg)) pos num pm)
                 (pos + Py.len (page_text_of b pg) + 2)) as [tail Ht].
    exists (page_text_of b pg +:+ page_separator +:+ tail).
    rewrite Ht. by rewrite !append_assoc.
Qed.

Lemma extract_text_app (b : bool) (pre rest : list Page) :
  extract_text_from_pdf b (pre ++ rest) =
    let r := extract_text_from_pdf b pre in
    extract_loop b rest (1 + Z.of_nat (length pre)) r.1 r.2 (Py.len r.1).
Proof. exact (extract_loop_app b pre rest 1 "" ∅). Qed.

Lemma extract_text_above (b : bool) (doc : list Page) :
  let r := extract_text_from_pdf b doc in
  ∀ off, Py.len r.1 ≤ off → r.2 !! off = None.
Proof. apply (extract_loop_above b doc 1 "" ∅). intros off _. apply lookup_empty. Qed.

(** The page map is not total: with two pages "ab" and "cd" the flattened
    text has eight characters, offset 2 is the first separator character
    after page 1, and the page map has no entry for it. *)
Lemma page_map_not_total :
  ¬ (∀ (has_ocr : bool) (doc : list Page) (off : Z),
       0 ≤ off < Py.len (extract_text_from_pdf has_ocr doc).1 →
       is_Some ((extract_text_from_pdf has_ocr doc).2 !! off)).
Proof.
  intros Htotal.
  pose (doc := [ {| get_text := "ab"; ocr_text := None |};
                 {| get_text := "cd"; ocr_text := None |} ]).
  destruct (Htotal false doc 2) as [p Hp].
  - assert (Py.len (extract_text_from_pdf false doc).1 = 8) as -> by reflexivity.
    lia.
  - vm_compute in Hp. discriminate Hp.
Qed.

(** C6 at its failing inputs: the page map is defined on the characters
    of the page texts only. For the page that follows the pages [pre],
    whose kept text [t] starts at offset [base] of the flattened text,
    every offset [base + i] with [i < len t] maps to that page's 1-based
    number and the flattened text continues with [t] and the separator,
    but the two separator offsets after [t], which are offsets of the
    flattened text as well, have no entry in the map: the loop steps over
    them without assigning them to the page before. *)
Theorem page_map_covers_page_text (has_ocr : bool) (pre post : list Page)
    (pg : Page) :
  let r := extract_text_from_pdf has_ocr (pre ++ pg :: post) in
  let before := (extract_text_from_pdf has_ocr pre).1 in
  let base := Py.len before in
  let t := page_text_of has_ocr pg in
  (∃ tail, r.1 = before +:+ t +:+ page_separator +:+ tail)
  ∧ (∀ i, 0 ≤ i < Py.len t →
       r.2 !! (base + i) = Some (Z.of_nat (length pre) + 1))
  ∧ r.2 !! (base + Py.len t) = None
  ∧ r.2 !! (base + Py.len t + 1) = None.
Proof.
  intros r before base t. subst r. rewrite extract_text_app. cbv zeta.
  set (r0 := extract_text_from_pdf has_ocr pre).
  simpl extract_loop. fold t. change (Py.len r0.1) with base.
  change r0.1 with before.
  pose proof (extract_text_above has_ocr pre) as Habove.
  cbv zeta in Habove. fold r0 in Habove. change (Py.len r0.1) with base in Habove.
  pose proof (len_nonneg t) as Ht.
  split; [|split; [|split]].
  - destruct (extract_loop_text has_ocr post (1 + Z.of_nat (length pre) + 1)
                (before +:+ t +:+ page_separator)
                (map_chars (String.length t) base (1 + Z.of_nat (length pre)) r0.2)
                (base + Py.len t + 2)) as [tail Htail].
    exists tail. rewrite Htail. by rewrite !append_assoc.
  - intros i Hi. rewrite extract_loop_below by lia.
    rewrite map_chars_lookup. unfold Py.len in *.
    case_decide; [f_equal; lia | lia].
  - rewrite extract_loop_below by lia. rewrite map_chars_lookup.
    case_decide; [unfold Py.len in *; lia |].
    apply Habove. lia.
  - rewrite extract_loop_below by lia. rewrite map_chars_lookup.
    case_decide; [unfold Py.len in *; lia |].
    apply Habove. lia.
Qed.

End PageMapCoverage.

Section ChunkerProgress.

(** What one iteration does to [start] when it does not leave the loop:
    with an overlap of at most [int(chunk_size * 0.4)] the next start lies
    strictly after the current one. *)
Lemma chunk_end_advances (txt : string) (chunk_size overlap start : Z) :
  0 ≤ overlap < chunk_size →
  overlap ≤ Py.int_times_0_4 chunk_size →
  chunk_end txt chunk_size start < Py.len txt →
  start < chunk_end txt chunk_size start - overlap.
Proof.
  intros Hov Hguard. unfold chunk_end.
  destruct (start + chunk_size <? Py.len txt) eqn:Hend; [|lia].
  destruct (last (finditer _)) as [[m_start m_end]|]; [|lia].
  destruct (Py.int_times_0_4 chunk_size <? _) eqn:Hsnap; lia.
Qed.

(** With such an overlap the loop is over after at most [len(text) - start]
    further iterations (and at least one is allowed). *)
Lemma chunk_loop_terminates (txt : string) (pm : gmap Z Z)
    (chunk_size overlap : Z) :
  0 ≤ overlap < chunk_size →
  overlap ≤ Py.int_times_0_4 chunk_size →
  ∀ (fuel : nat) (start : Z) (chunks : list Chunk),
    Py.len txt - start < Z.of_nat fuel →
    (0 < fuel)%nat →
    is_Some (chunk_loop fuel txt pm chunk_size overlap start chunks).
Proof.
  intros Hov Hguard. induction fuel as [|fuel IH]; intros start chunks Hfuel Hpos.
  - lia.
  - simpl chunk_loop. destruct (start <? Py.len txt) eqn:Hlt; [|by eexists].
    destruct (Py.len txt <=? chunk_end txt chunk_size start) eqn:Hexit;
      [by eexists|].
    apply IH.
    + pose proof (chunk_end_advances txt chunk_size overlap start Hov Hguard).
      lia.
    + lia.
Qed.

(** X21 (chunk_text, termination). With 0 <= overlap < chunk_size and
    overlap <= int(chunk_size * 0.4) the chunker returns: its loop is
    over after at most len(text) + 1 iterations. *)
Lemma chunk_text_terminates (txt : string) (pm : gmap Z Z)
    (chunk_size overlap : Z) :
  0 ≤ overlap < chunk_size →
  overlap ≤ Py.int_times_0_4 chunk_size →
  is_Some (chunk_text (S (String.length txt)) txt pm chunk_size overlap).
Proof.
  intros Hov Hguard. apply chunk_loop_terminates; try done.
  - unfold Py.len. lia.
  - lia.
Qed.

(** More fuel never changes an answer already obtained. *)
Lemma chunk_loop_fuel_mono (txt : string) (pm : gmap Z Z)
    (chunk_size overlap : Z) :
  ∀ (fuel extra : nat) (start : Z) (chunks out : list Chunk),
    chunk_loop fuel txt pm chunk_size overlap start chunks = Some out →
    chunk_loop (fuel + extra) txt pm chunk_size overlap start chunks = Some out.
Proof.
  induction fuel as [|fuel IH]; intros extra start chunks out; [done |].
  simpl. destruct (start <? Py.len txt); [|done].
  destruct (Py.len txt <=? chunk_end txt chunk_size start); [done |].
  apply IH.
Qed.

(** C5 at a failing input: for the text "aa. bb. cc. dd. ee." with
    chunk size 10 and overlap 8 (a valid pair, 0 <= 8 < 10) the first
    iteration snaps the end to offset 8, so the next start is 8 - 8 = 0
    again: the start position does not advance, and the loop is still
    running after any number of iterations. *)
Theorem chunk_text_stalls (pm : gmap Z Z) :
  let txt := "aa. bb. cc. dd. ee." in
  chunk_end txt 10 0 - 8 = 0
  ∧ ∀ fuel, chunk_text fuel txt pm 10 8 = None.
Proof.
  intros txt. split; [reflexivity |].
  assert (Hloop : ∀ fuel chunks, chunk_loop fuel txt pm 10 8 0 chunks = None).
  { induction fuel as [|fuel IH]; intros chunks; [done |].
    simpl chunk_loop.
    change (0 <? Py.len txt) with true.
    change (chunk_end txt 10 0) with 8.
    change (Py.len txt <=? 8) with false.
    cbv iota. apply IH. }
  intros fuel. apply Hloop.
Qed.

End ChunkerProgress.

Section ChunkerOverlap.

(** The emitted chunks are the candidates that survive [make_chunk]. *)
Lemma chunk_loop_spans (txt : string) (pm : gmap Z Z) (chunk_size overlap : Z) :
  ∀ (fuel : nat) (start : Z) (chunks : list Chunk),
    chunk_loop fuel txt pm chunk_size overlap start chunks =
      (λ spans, chunks ++ omap (chunk_of_span txt pm) spans)
        <$> chunk_spans fuel txt chunk_size overlap start.
Proof.
  induction fuel as [|fuel IH]; intros start chunks; [done |].
  simpl chunk_loop. simpl chunk_spans.
  destruct (start <? Py.len txt); [|simpl; by rewrite app_nil_r].
  set (end_ := chunk_end txt chunk_size start).
  destruct (Py.len txt <=? end_).
  - simpl. unfold chunk_of_span. simpl.
    destruct (make_chunk txt pm start end_); [done | by rewrite app_nil_r].
  - rewrite IH. destruct (chunk_spans fuel _ _ _ _) as [spans|]; [|done].
    simpl. unfold chunk_of_span at 2. simpl.
    destruct (make_chunk txt pm start end_); [|done].
    by rewrite <- app_assoc.
Qed.






Lemma make_chunk_span (txt : string) (pm : gmap Z Z) (sp : Z * Z) (c : Chunk) :
  chunk_of_span txt pm sp = Some c → span_of c = sp.
Proof.
  unfold chunk_of_span, make_chunk. destruct (Py.truthy _); [|done].
  intros [= <-]. by destruct sp.
Qed.


End ChunkerOverlap.

Section ChunkOverlap.






End ChunkOverlap.

(* ===================================================================== *)
(** * Properties of the vector store                                      *)
(* ===================================================================== *)

Section StoreUnbuilt.
Context `{Backend}.

Lemma search_unbuilt (s : VectorStore) (query : string) (k : Z) :
  unbuilt s → search query k s = (Ok [], s).
Proof.
  intros [Hidx|Hcs]; unfold search, mbind, M_bind, get_state; simpl.
  - by rewrite Hidx.
  - rewrite Hcs. by destruct (index s).
Qed.

Lemma get_context_unbuilt (h : pyheap) (s : VectorStore) (query : string)
    (k max_context_length : Z) :
  unbuilt s →
  get_context_for_query h query k max_context_length s = (Ok ("", []), s).
Proof.
  intros Hs. unfold get_context_for_query, mbind, M_bind.
  by rewrite search_unbuilt.
Qed.

(** C4: on a freshly constructed store every search returns the empty
    list without raising, for any query and any [k] (in particular any
    [k > 0]), and the context assembled for it is the empty string with an
    empty citation list. The store is left as it was. *)
Theorem search_fresh_store (h : pyheap) (query : string) (k max_context_length : Z) :
  search query k init = (Ok [], init)
  ∧ get_context_for_query h query k max_context_length init
    = (Ok ("", []), init).
Proof.
  split.
  - apply search_unbuilt. by left.
  - apply get_context_unbuilt. by left.
Qed.

(** C8: a call of [create_from_chunks] with an empty list, whether it
    returns or raises in the encoder, changes no chunk object and leaves
    the store with an empty chunk list, hence unbuilt in the sense of the
    guard of [search]: every later search returns the empty list without
    raising, and every context is empty. When the call raises, the index
    field itself is the one from before the call. *)
Theorem create_from_empty_list (h : pyheap) (s : VectorStore) :
  let r := create_from_chunks [] (h, s) in
  r.2.1 = h
  ∧ chunks r.2.2 = []
  ∧ unbuilt r.2.2
  ∧ (r.1 ≠ Ok () → index r.2.2 = index s)
  ∧ (∀ query k, search query k r.2.2 = (Ok [], r.2.2))
  ∧ (∀ h' query k max_context_length,
       get_context_for_query h' query k max_context_length r.2.2
       = (Ok ("", []), r.2.2)).
Proof.
  intros r.
  assert (Hchunks : r.2.1 = h ∧ chunks r.2.2 = []
                    ∧ (r.1 ≠ Ok () → index r.2.2 = index s)).
  { subst r. unfold create_from_chunks, mbind, M_bind, modify, get_state,
      lift_outcome, lift_option. simpl.
    destruct (encode []) as [embs|]; simpl; [|done].
    split; [done |]. split; [done |]. intros Hne. by destruct Hne. }
  destruct Hchunks as (Hheap & Hcs & Hidx).
  assert (Hun : unbuilt r.2.2) by (by right).
  repeat split; try done.
  - intros query k. by apply search_unbuilt.
  - intros h' query k B. by apply get_context_unbuilt.
Qed.

End StoreUnbuilt.

Section StoreFrame.
Context `{Backend}.

Lemma ensure_document_lookup (d : gmap string pyval) (key : string) :
  ensure_document d !! key =
    if decide (key = "document")
    then Some (match d !! "document" with
               | Some v => v
               | None => default (VStr "Unknown") (d !! "doc")
               end)
    else d !! key.
Proof.
  unfold ensure_document. destruct (d !! "document") as [v|] eqn:Hdoc.
  - case_decide; [by subst | done].
  - case_decide.
    + subst. by rewrite lookup_insert_eq.
    + by rewrite lookup_insert_ne.
Qed.

Lemma ensure_document_idem (d : gmap string pyval) :
  ensure_document (ensure_document d) = ensure_document d.
Proof.
  unfold ensure_document at 1.
  rewrite ensure_document_lookup. by rewrite decide_True.
Qed.

Lemma ensure_documents_other (cs : list loc) (h : pyheap) (l : loc) :
  l ∉ cs → ensure_documents cs h !! l = h !! l.
Proof.
  revert h. induction cs as [|c cs IH]; intros h Hl; [done |].
  apply not_elem_of_cons in Hl as [Hne Hl]. simpl.
  rewrite IH by done. by rewrite lookup_insert_ne.
Qed.

Lemma ensure_documents_lookup (cs : list loc) (h : pyheap) (l : loc) :
  (ensure_documents cs h !!! l : gmap string pyval)
    = if decide (l ∈ cs) then ensure_document (h !!! l) else h !!! l.
Proof.
  revert h. induction cs as [|c cs IH]; intros h.
  - rewrite decide_False; [done | apply not_elem_of_nil].
  - change (ensure_documents (c :: cs) h)
      with (ensure_documents cs (<[c:=ensure_document (h !!! c)]> h)).
    rewrite IH. destruct (decide (c = l)) as [->|Hne].
    + rewrite lookup_total_insert_eq, ensure_document_idem.
      rewrite (decide_True (P := l ∈ l :: cs)) by apply list_elem_of_here.
      by case_decide.
    + rewrite lookup_total_insert_ne by done.
      destruct (decide (l ∈ cs)) as [Hin|Hnin].
      * rewrite decide_True; [done | by apply list_elem_of_further].
      * rewrite decide_False; [done |].
        intros Hin. apply elem_of_cons in Hin as [->|Hin]; done.
Qed.

(** The heap and the chunk list after [create_from_chunks], whatever the
    outcome of the call. *)
Lemma create_from_chunks_state (cs : list loc) (h : pyheap) (s : VectorStore) :
  let r := create_from_chunks cs (h, s) in
  r.2.1 = ensure_documents cs h ∧ chunks r.2.2 = cs ∧ cache r.2.2 = cache s.
Proof.
  unfold create_from_chunks, mbind, M_bind, modify, get_state, lift_outcome,
    lift_option. simpl.
  destruct (chunk_texts (ensure_documents cs h) cs) as [texts|e]; simpl; [|done].
  by destruct (encode texts).
Qed.

(** C10: [create_from_chunks] updates the chunk dictionaries it is given
    in place. Whether the call returns or raises later on, every chunk
    object of the list then has a 'document' entry: its own if it had one,
    otherwise the value of its 'doc' entry, otherwise 'Unknown'. Every
    other key of these dictionaries, and every object that is not in the
    list, is as before, and the store keeps the very references it was
    given. *)
Theorem create_from_chunks_inserts_document (cs : list loc) (h : pyheap)
    (s : VectorStore) :
  let r := create_from_chunks cs (h, s) in
  (∀ (l : loc) (key : string), l ∈ cs →
     (r.2.1 !!! l : gmap string pyval) !! key =
       if decide (key = "document")
       then Some (match (h !!! l : gmap string pyval) !! "document" with
                  | Some v => v
                  | None => default (VStr "Unknown")
                              ((h !!! l : gmap string pyval) !! "doc")
                  end)
       else (h !!! l : gmap string pyval) !! key)
  ∧ (∀ l : loc, l ∉ cs → r.2.1 !! l = h !! l)
  ∧ chunks r.2.2 = cs.
Proof.
  intros r. destruct (create_from_chunks_state cs h s) as (Hheap & Hcs & _).
  fold r in Hheap, Hcs. rewrite Hheap. split; [|split; [|done]].
  - intros l key Hl. rewrite ensure_documents_lookup, decide_True by done.
    apply ensure_document_lookup.
  - intros l Hl. by apply ensure_documents_other.
Qed.

End StoreFrame.

Section ContextAssembly.
Context `{Backend}.

Lemma sum_len_nonneg (bodies : list string) : 0 ≤ sum_len bodies.
Proof.
  induction bodies as [|b bodies IH]; simpl; [done |].
  pose proof (len_nonneg b). lia.
Qed.

(** The body chosen for a text when budget is left. *)
Lemma fit_text_budget (txt : string) (cur_len max_context_length : Z) :
  cur_len < max_context_length →
  let remaining := max_context_length - cur_len in
  fit_text txt cur_len max_context_length =
    (if remaining <? Py.len txt
     then Py.slice_to txt remaining
            +:+ (if 3 <? remaining then truncation_marker else "")
     else txt)
  ∧ cur_len + Py.len (fit_text txt cur_len max_context_length)
    ≤ max_context_length + Py.len truncation_marker
  ∧ ((remaining <? Py.len txt) = true →
     max_context_length
     ≤ cur_len + Py.len (fit_text txt cur_len max_context_length)).
Proof.
  intros Hcur remaining. unfold fit_text. fold remaining.
  assert (Hcmp : (max_context_length <? cur_len + Py.len txt)
                 = (remaining <? Py.len txt)).
  { subst remaining. destruct (_ <? Py.len txt) eqn:E; lia. }
  rewrite Hcmp. rewrite Z.max_r by (subst remaining; lia).
  change (Py.len truncation_marker) with 3.
  destruct (remaining <? Py.len txt) eqn:Htrunc.
  - split; [done |]. rewrite len_append, len_slice_to by (subst remaining; lia).
    rewrite Z.min_l by lia.
    destruct (3 <? remaining); unfold truncation_marker;
      [change (Py.len "...") with 3 | change (Py.len "") with 0];
      subst remaining; lia.
  - split; [done |]. subst remaining. split; [lia | done].
Qed.

Lemma context_loop_spec (h : pyheap) (max_context_length : Z) :
  ∀ (results : list result) (parts0 : list string)
    (srcs0 : list SourceCitation) (cur_len : Z)
    (parts : list string) (srcs : list SourceCitation),
    context_loop h max_context_length results parts0 srcs0 cur_len
      = Ok (parts, srcs) →
    ∃ bodies : list string,
      let used := take (length bodies) results in
      (length bodies ≤ length results)%nat
      ∧ parts = parts0 ++ zip_with (part_of h) used bodies
      ∧ srcs = srcs0 ++ (cite h <$> used)
      ∧ ((length bodies < length results)%nat →
         max_context_length ≤ cur_len + sum_len bodies)
      ∧ (cur_len < max_context_length →
         cur_len + sum_len bodies
         ≤ max_context_length + Py.len truncation_marker)
      ∧ (∀ (i : nat) (r : result) (body : string),
           results !! i = Some r → bodies !! i = Some body →
           ∃ txt, (h !!! r.1 : gmap string pyval) !! "text" = Some (VStr txt)
                  ∧ body = fit_text txt (cur_len + sum_len (take i bodies))
                             max_context_length
                  ∧ (i ≠ 0%nat →
                     cur_len + sum_len (take i bodies) < max_context_length)).
Proof.
  assert (Hmarker : Py.len truncation_marker = 3) by done.
  induction results as [|[c score] rest IH];
    intros parts0 srcs0 cur_len parts srcs Hrun.
  - injection Hrun as <- <-. exists []. simpl.
    rewrite !app_nil_r. repeat split; try done; try lia.
  - simpl in Hrun.
    destruct ((h !!! c : gmap string pyval) !! "text") as [[txt| |]|] eqn:Htxt;
      try discriminate Hrun.
    set (add_txt := fit_text txt cur_len max_context_length) in *.
    destruct (max_context_length <=? cur_len + Py.len add_txt) eqn:Hfull.
    + injection Hrun as <- <-. exists [add_txt]. simpl.
      repeat split; try done; try lia.
      * intros Hcur. destruct (fit_text_budget txt cur_len max_context_length Hcur)
          as (_ & Hle & _). fold add_txt in Hle. lia.
      * intros [|i] r body Hr Hb; [|by destruct i].
        injection Hr as <-. injection Hb as <-.
        exists txt. simpl. rewrite Z.add_0_r. done.
    + destruct (IH _ _ _ _ _ Hrun)
        as (bodies & Hlen & Hparts & Hsrcs & Hdrop & Hsum & Hbodies).
      exists (add_txt :: bodies). simpl.
      repeat split.
      * lia.
      * rewrite Hparts. by rewrite <- app_assoc.
      * rewrite Hsrcs. by rewrite <- app_assoc.
      * intros Hlt. lia.
      * intros Hcur. lia.
      * intros [|i] r body Hr Hb.
        -- injection Hr as <-. injection Hb as <-.
           exists txt. simpl. rewrite Z.add_0_r. done.
        -- simpl in Hr, Hb. destruct (Hbodies i r body Hr Hb)
             as (txt' & Htxt' & Hbody & Hpos).
           exists txt'. simpl.
           replace (cur_len + (Py.len add_txt + sum_len (take i bodies)))
             with (cur_len + Py.len add_txt + sum_len (take i bodies)) by lia.
           split; [done |]. split; [done |]. intros _.
           pose proof (sum_len_nonneg (take i bodies)).
           destruct i as [|i]; [simpl; lia | apply Hpos; lia].
Qed.

(** The first result is always used: the loop appends a citation for it
    before it looks at the budget. *)
Lemma context_loop_uses_first (h : pyheap) (max_context_length : Z)
    (r : result) (rest : list result) (parts0 : list string)
    (srcs0 : list SourceCitation) (cur_len : Z)
    (parts : list string) (srcs : list SourceCitation) :
  context_loop h max_context_length (r :: rest) parts0 srcs0 cur_len
    = Ok (parts, srcs) →
  (length srcs0 < length srcs)%nat.
Proof.
  destruct r as [c score]. simpl.
  destruct ((h !!! c : gmap string pyval) !! "text") as [[txt| |]|]; try done.
  destruct (max_context_length <=? _).
  - intros [= <- <-]. rewrite length_app. simpl. lia.
  - intros Hloop. apply context_loop_spec in Hloop
      as (bodies & _ & _ & -> & _). rewrite !length_app. simpl. lia.
Qed.

End ContextAssembly.

Section ContextBudget.
Context `{Backend}.

Lemma get_context_inv (h : pyheap) (query : string) (k max_context_length : Z)
    (s s' : VectorStore) (ctx : string) (srcs : list SourceCitation) :
  get_context_for_query h query k max_context_length s = (Ok (ctx, srcs), s') →
  ∃ results parts,
    search query k s = (Ok results, s')
    ∧ ctx = join part_separator parts
    ∧ context_loop h max_context_length results [] [] 0 = Ok (parts, srcs).
Proof.
  unfold get_context_for_query, mbind, M_bind, lift_outcome, mret, M_ret.
  destruct (search query k s) as [[results|e] s1]; [|discriminate].
  destruct results as [|r results]; cbn [is_nonempty].
  - intros [= <- <- <-]. by exists [], [].
  - destruct (context_loop h max_context_length (r :: results) [] [] 0)
      as [[parts srcs1]|e] eqn:Hloop; [|discriminate].
    cbn [fst snd]. intros [= <- <- <-]. by exists (r :: results), parts.
Qed.

(** What the budget does bound: the chunk bodies. For a positive
    budget the context is made of one part per used result, a label
    followed by a body; the used results are a prefix of the search
    results, and a result is used only while budget remains. Each body is
    the whole chunk text when it fits the remaining budget, and otherwise
    the first [remaining] characters of it, followed by the marker only
    when [remaining > 3]. The bodies together have at most
    [max_context_length + len(marker)] characters, and when results were
    left out the bodies have used up the budget. Labels and separators
    come on top of that and are not counted. *)
Theorem context_bodies_within_budget (h : pyheap) (query : string)
    (k max_context_length : Z) (s s' : VectorStore) (ctx : string)
    (srcs : list SourceCitation) :
  0 < max_context_length →
  get_context_for_query h query k max_context_length s = (Ok (ctx, srcs), s') →
  ∃ (results : list result) (bodies : list string),
    search query k s = (Ok results, s')
    ∧ (length bodies ≤ length results)%nat
    ∧ ctx = join part_separator
              (zip_with (part_of h) (take (length bodies) results) bodies)
    ∧ sum_len bodies ≤ max_context_length + Py.len truncation_marker
    ∧ ((length bodies < length results)%nat → max_context_length ≤ sum_len bodies)
    ∧ (∀ (i : nat) (r : result) (body : string),
         results !! i = Some r → bodies !! i = Some body →
         ∃ txt, (h !!! r.1 : gmap string pyval) !! "text" = Some (VStr txt)
           ∧ let remaining := max_context_length - sum_len (take i bodies) in
             0 < remaining
             ∧ body = if remaining <? Py.len txt
                      then Py.slice_to txt remaining
                             +:+ (if 3 <? remaining then truncation_marker else "")
                      else txt).
Proof.
  intros Hpos Hrun.
  destruct (get_context_inv _ _ _ _ _ _ _ _ Hrun)
    as (results & parts & Hsearch & -> & Hloop).
  destruct (context_loop_spec _ _ _ _ _ _ _ _ Hloop)
    as (bodies & Hlen & Hparts & _ & Hdrop & Hsum & Hbodies).
  exists results, bodies. simpl in Hparts. subst parts.
  split; [done |]. split; [done |]. split; [done |].
  split; [lia |]. split; [intros Hlt; specialize (Hdrop Hlt); lia |].
  intros i r body Hr Hb.
  destruct (Hbodies i r body Hr Hb) as (txt & Htxt & Hbody & Hcur).
  exists txt. split; [done |]. cbv zeta.
  assert (Hlt : 0 + sum_len (take i bodies) < max_context_length).
  { destruct i as [|i]; [simpl; lia | apply Hcur; lia]. }
  destruct (fit_text_budget txt _ _ Hlt) as (Hfit & _ & _).
  rewrite Z.add_0_l in *. split; [lia |]. by rewrite Hbody.
Qed.

(** C9: the citations run parallel to the context parts. The loop uses a
    prefix of the search results: the first result always, and each
    further one only while the bodies before it have not reached the
    budget; when results are left out the budget is used up. The body of
    a used result is what [fit_text] cuts from the chunk's text at the
    length reached so far, the context is the parts (label and body) of
    the used results joined by the separator, and the source list is
    exactly one citation per used result, in the same order. The citation
    of a result carries the chunk's own text cut to at most 800
    characters (never the truncated body), the chunk's document and page
    entries, and the score of the result unchanged. *)
Theorem citations_parallel_to_context (h : pyheap) (query : string)
    (k max_context_length : Z) (s s' : VectorStore) (ctx : string)
    (srcs : list SourceCitation) :
  get_context_for_query h query k max_context_length s = (Ok (ctx, srcs), s') →
  ∃ (results : list result) (bodies : list string),
    search query k s = (Ok results, s')
    ∧ (length bodies ≤ length results)%nat
    ∧ (results ≠ [] → bodies ≠ [])
    ∧ ((length bodies < length results)%nat →
       max_context_length ≤ sum_len bodies)
    ∧ (∀ (i : nat) (r : result) (body : string),
         results !! i = Some r → bodies !! i = Some body →
         (i ≠ 0%nat → sum_len (take i bodies) < max_context_length)
         ∧ ∃ txt, (h !!! r.1 : gmap string pyval) !! "text" = Some (VStr txt)
                  ∧ body = fit_text txt (sum_len (take i bodies))
                             max_context_length)
    ∧ ctx = join part_separator
              (zip_with (part_of h) (take (length bodies) results) bodies)
    ∧ srcs = cite h <$> take (length bodies) results
    ∧ length srcs = length bodies
    ∧ (∀ (i : nat) (c : loc) (score : F),
         (i < length bodies)%nat → results !! i = Some (c, score) →
         ∃ (cit : SourceCitation) (txt : string),
           srcs !! i = Some cit
           ∧ (h !!! c : gmap string pyval) !! "text" = Some (VStr txt)
           ∧ text cit = VStr (Py.slice_to txt 800)
           ∧ Py.len (Py.slice_to txt 800) ≤ 800
           ∧ document cit
             = default (VStr "Unknown") ((h !!! c : gmap string pyval) !! "document")
           ∧ page cit = default VNone ((h !!! c : gmap string pyval) !! "page")
           ∧ relevance_score cit = score).
Proof.
  intros Hrun.
  destruct (get_context_inv _ _ _ _ _ _ _ _ Hrun)
    as (results & parts & Hsearch & -> & Hloop).
  destruct (context_loop_spec _ _ _ _ _ _ _ _ Hloop)
    as (bodies & Hlen & Hparts & Hsrcs & Hdrop & _ & Hbodies).
  exists results, bodies. simpl in Hparts, Hsrcs. subst parts.
  split; [done |]. split; [done |]. split.
  { intros Hne ->. destruct results as [|r rest]; [done |].
    apply context_loop_uses_first in Hloop. subst srcs. simpl in Hloop. lia. }
  subst srcs.
  split; [intros Hlt; specialize (Hdrop Hlt); lia |]. split.
  { intros i r body Hr Hb.
    destruct (Hbodies i r body Hr Hb) as (txt & Htxt & Hbody & Hcur).
    rewrite Z.add_0_l in Hbody, Hcur. split; [done |]. by exists txt. }
  split; [done |]. split; [done |].
  split; [rewrite length_fmap, length_take; lia |].
  intros i c score Hi Hr.
  destruct (lookup_lt_is_Some_2 bodies i Hi) as [body Hb].
  destruct (Hbodies i (c, score) body Hr Hb) as (txt & Htxt & _ & _).
  simpl in Htxt.
  exists (cite h (c, score)), txt. split; [|split; [done |]].
  - apply list_lookup_fmap_Some_2. rewrite lookup_take_lt by done. exact Hr.
  - unfold cite, citation_of. simpl. rewrite Htxt. simpl.
    split; [done |]. split; [|done].
    rewrite len_slice_to by lia. lia.
Qed.

End ContextBudget.

Section Cache.
Context `{Backend}.

Lemma od_lookup_app_fresh (key : cache_key) (l1 l2 : list (cache_key * list result)) :
  Forall (λ kv, kv.1 ≠ key) l1 → od_lookup key (l1 ++ l2) = od_lookup key l2.
Proof.
  induction 1 as [|[k v] l1 Hk _ IH]; [done |].
  simpl in *. by rewrite decide_False.
Qed.

Lemma filter_others_fresh (key : cache_key) (d : list (cache_key * list result)) :
  Forall (λ kv, kv.1 ≠ key) (filter (λ kv, kv.1 ≠ key) d).
Proof. apply Forall_forall. intros kv Hin. by apply list_elem_of_filter in Hin as [? _]. Qed.

Lemma od_lookup_setitem (key : cache_key) (value : list result)
    (d : list (cache_key * list result)) :
  od_lookup key (od_setitem key value d) = Some value.
Proof.
  induction d as [|[k v] d IH]; simpl.
  - by rewrite decide_True.
  - destruct (decide (k = key)) as [->|Hne]; simpl.
    + by rewrite decide_True.
    + by rewrite decide_False.
Qed.

Lemma od_lookup_move_to_end (key : cache_key) (value : list result)
    (d : list (cache_key * list result)) :
  od_lookup key d = Some value →
  od_move_to_end key d = filter (λ kv, kv.1 ≠ key) d ++ [(key, value)]
  ∧ od_lookup key (od_move_to_end key d) = Some value.
Proof.
  intros Hd. unfold od_move_to_end. rewrite Hd. split; [done |].
  rewrite od_lookup_app_fresh by apply filter_others_fresh.
  simpl. by rewrite decide_True.
Qed.

(** An entry just read is still there afterwards. *)
Lemma cache_get_hit (key : cache_key) (value : list result) (c : SimpleLRUCache) :
  od_lookup key (data c) = Some value →
  (cache_get key c).1 = Some value
  ∧ od_lookup key (data (cache_get key c).2) = Some value
  ∧ capacity (cache_get key c).2 = capacity c.
Proof.
  intros Hd. unfold cache_get. rewrite Hd. simpl.
  split; [done |]. split; [|done]. by apply od_lookup_move_to_end.
Qed.

Lemma cache_get_miss (key : cache_key) (c : SimpleLRUCache) :
  od_lookup key (data c) = None → cache_get key c = (None, c).
Proof. intros Hd. unfold cache_get. by rewrite Hd. Qed.

(** An entry just written is there, unless the capacity is not positive. *)
Lemma cache_set_lookup (key : cache_key) (value : list result) (c : SimpleLRUCache) :
  0 < capacity c →
  od_lookup key (data (cache_set key value c)) = Some value
  ∧ capacity (cache_set key value c) = capacity c.
Proof.
  intros Hcap. unfold cache_set. simpl. split; [|done].
  destruct (od_lookup_move_to_end key value (od_setitem key value (data c)))
    as [Hmove Hfound]; [apply od_lookup_setitem |].
  destruct (capacity c <? _) eqn:Hfull; [|done].
  rewrite Hmove in Hfull |- *.
  pose proof (filter_others_fresh key (od_setitem key value (data c))) as Hfresh.
  destruct (filter _ (od_setitem key value (data c))) as [|kv rest].
  - apply Z.ltb_lt in Hfull. change (capacity c < 1) in Hfull. lia.
  - simpl. apply Forall_cons in Hfresh as [_ Hfresh].
    rewrite od_lookup_app_fresh by done. simpl. by rewrite decide_True.
Qed.

(** Without the assumption on the capacity the entry may have been
    evicted at once, but no other value can be found under the key. *)
Lemma cache_set_lookup_weak (key : cache_key) (value : list result)
    (c : SimpleLRUCache) :
  od_lookup key (data (cache_set key value c)) = Some value
  ∨ od_lookup key (data (cache_set key value c)) = None.
Proof.
  unfold cache_set. simpl.
  destruct (od_lookup_move_to_end key value (od_setitem key value (data c)))
    as [Hmove Hfound]; [apply od_lookup_setitem |].
  destruct (capacity c <? _) eqn:Hfull; [|by left].
  rewrite Hmove.
  pose proof (filter_others_fresh key (od_setitem key value (data c))) as Hfresh.
  destruct (filter _ (od_setitem key value (data c))) as [|kv rest].
  - by right.
  - left. simpl. apply Forall_cons in Hfresh as [_ Hfresh].
    rewrite od_lookup_app_fresh by done. simpl. by rewrite decide_True.
Qed.

End Cache.

Section SearchCache.
Context `{Backend}.

(** [search] in plain state-passing form. *)
Lemma search_unfold (query : string) (k : Z) (s : VectorStore) :
  search query k s =
    match index s with
    | None => (Ok [], s)
    | Some idx =>
        if Z.of_nat (length (chunks s)) =? 0 then (Ok [], s)
        else
          let key := (sha256_hexdigest query, k) in
          let got := cache_get key (cache s) in
          let s1 := set_cache got.2 s in
          if is_nonempty (default [] got.1) then (Ok (default [] got.1), s1)
          else
            match fresh_results query k idx (chunks s) with
            | Ok results =>
                (Ok results, set_cache (cache_set key results (cache s1)) s1)
            | Raise e => (Raise e, s1)
            end
    end.
Proof.
  unfold search, fresh_results, mbind, M_bind, get_state, modify, lift_option,
    lift_outcome, raise, mret, M_ret.
  destruct (index s) as [idx|]; [|done].
  destruct (_ =? 0); [done |].
  destruct (cache_get _ (cache s)) as [cached c']. cbn [fst snd].
  destruct (is_nonempty (default [] cached)); [done |].
  destruct (encode [VStr query]) as [q_emb|]; [|done].
  destruct (_normalize q_emb) as [|q rest]; [done |].
  destruct (ip_search _ _ _) as [hits|]; [|done].
  by destruct (collect_results _ _).
Qed.

(** A search never changes the index, the chunk list or the capacity of
    the cache, and a non-empty answer is in the cache afterwards. *)
Lemma search_caches_answer (query : string) (k : Z) (s s1 : VectorStore)
    (r : list result) :
  0 < capacity (cache s) →
  search query k s = (Ok r, s1) →
  index s1 = index s ∧ chunks s1 = chunks s
  ∧ capacity (cache s1) = capacity (cache s)
  ∧ (r ≠ [] → od_lookup (sha256_hexdigest query, k) (data (cache s1)) = Some r).
Proof.
  intros Hcap. rewrite search_unfold.
  destruct (index s) as [idx|] eqn:Hidx; [|by intros [= <- <-]].
  destruct (_ =? 0); [by intros [= <- <-] |].
  cbv zeta. set (key := (sha256_hexdigest query, k)).
  destruct (od_lookup key (data (cache s))) as [v|] eqn:Hlook.
  - destruct (cache_get_hit key v (cache s) Hlook) as (Hget & Hstill & Hcap').
    rewrite Hget. simpl default.
    destruct (is_nonempty v) eqn:Hv.
    + intros [= <- <-]. simpl. by rewrite Hidx.
    + destruct (fresh_results _ _ _ _) as [results|e]; [|discriminate].
      intros [= <- <-]. simpl. rewrite Hidx.
      destruct (cache_set_lookup key results (cache_get key (cache s)).2)
        as [Hset Hcap'']; [lia |].
      repeat split; (done || lia).
  - rewrite (cache_get_miss key (cache s) Hlook). simpl.
    destruct (fresh_results _ _ _ _) as [results|e]; [|discriminate].
    intros [= <- <-]. simpl. rewrite Hidx.
    destruct (cache_set_lookup key results (cache s)) as [Hset Hcap'']; [lia |].
    done.
Qed.

(** On a built store a cached non-empty list is what [search] returns. *)
Lemma search_returns_cached (query : string) (k : Z) (s : VectorStore)
    (r : list result) :
  ¬ unbuilt s → r ≠ [] →
  od_lookup (sha256_hexdigest query, k) (data (cache s)) = Some r →
  ∃ s1, search query k s = (Ok r, s1).
Proof.
  intros Hbuilt Hr Hlook. rewrite search_unfold.
  destruct (index s) as [idx|] eqn:Hidx; [|destruct Hbuilt; by left].
  destruct (_ =? 0) eqn:Hlen.
  { destruct Hbuilt. right. destruct (chunks s); [done | simpl in Hlen; lia]. }
  cbv zeta. destruct (cache_get_hit _ r (cache s) Hlook) as (Hget & _ & _).
  rewrite Hget. simpl default.
  destruct r as [|x r]; [done |]. simpl. by eexists.
Qed.

(** What a rebuild does not do: the answer that a search put into the
    cache survives [create_from_chunks], and the same search on the
    rebuilt store returns it. *)
Lemma search_after_rebuild (h : pyheap) (query : string) (k : Z)
    (s s1 : VectorStore) (r : list result) (cs : list loc) :
  0 < capacity (cache s) →
  search query k s = (Ok r, s1) → r ≠ [] →
  let rebuilt := (create_from_chunks cs (h, s1)).2.2 in
  cache rebuilt = cache s1
  ∧ chunks rebuilt = cs
  ∧ (¬ unbuilt rebuilt → ∃ s3, search query k rebuilt = (Ok r, s3)).
Proof.
  intros Hcap Hsearch Hr rebuilt.
  destruct (create_from_chunks_state cs h s1) as (_ & Hcs & Hcache).
  fold rebuilt in Hcs, Hcache.
  split; [done |]. split; [done |]. intros Hbuilt.
  apply search_returns_cached; [done | done |]. rewrite Hcache.
  by apply (search_caches_answer query k s s1 r Hcap Hsearch).
Qed.

(** The two ways in which a built store answers: from the cache, with a
    non-empty list that stays cached, or by computing the results afresh
    and storing them. *)
Lemma search_built_cases (query : string) (k : Z) (s s1 : VectorStore)
    (idx : list (list F)) (r : list result) :
  index s = Some idx → chunks s ≠ [] →
  search query k s = (Ok r, s1) →
  let key := (sha256_hexdigest query, k) in
  index s1 = Some idx ∧ chunks s1 = chunks s
  ∧ ((r ≠ [] ∧ od_lookup key (data (cache s1)) = Some r)
     ∨ (fresh_results query k idx (chunks s) = Ok r
        ∧ (od_lookup key (data (cache s1)) = Some r
           ∨ od_lookup key (data (cache s1)) = None))).
Proof.
  intros Hidx Hcs. rewrite search_unfold, Hidx.
  destruct (_ =? 0) eqn:Hlen.
  { destruct (chunks s); [done | simpl in Hlen; lia]. }
  cbv zeta. set (key := (sha256_hexdigest query, k)).
  destruct (od_lookup key (data (cache s))) as [v|] eqn:Hlook.
  - destruct (cache_get_hit key v (cache s) Hlook) as (Hget & Hstill & _).
    rewrite Hget. simpl default.
    destruct (is_nonempty v) eqn:Hv.
    + intros [= <- <-]. simpl. split; [done |]. split; [done |]. left.
      split; [by destruct v | done].
    + destruct (fresh_results _ _ _ _) as [results|e] eqn:Hfresh; [|discriminate].
      intros [= <- <-]. simpl. split; [done |]. split; [done |]. right.
      split; [done |]. apply cache_set_lookup_weak.
  - rewrite (cache_get_miss key (cache s) Hlook). simpl.
    destruct (fresh_results _ _ _ _) as [results|e] eqn:Hfresh; [|discriminate].
    intros [= <- <-]. simpl. split; [done |]. split; [done |]. right.
    split; [done |]. apply cache_set_lookup_weak.
Qed.

Lemma search_from_fresh (query : string) (k : Z) (s : VectorStore)
    (idx : list (list F)) (r : list result) :
  index s = Some idx → chunks s ≠ [] →
  fresh_results query k idx (chunks s) = Ok r →
  od_lookup (sha256_hexdigest query, k) (data (cache s)) = Some r
  ∨ od_lookup (sha256_hexdigest query, k) (data (cache s)) = None →
  ∃ s1, search query k s = (Ok r, s1).
Proof.
  intros Hidx Hcs Hfresh Hlook. rewrite search_unfold, Hidx.
  destruct (_ =? 0) eqn:Hlen.
  { destruct (chunks s); [done | simpl in Hlen; lia]. }
  cbv zeta. destruct Hlook as [Hlook|Hlook].
  - destruct (cache_get_hit _ r (cache s) Hlook) as (Hget & _ & _).
    rewrite Hget. simpl default. destruct r as [|x r]; simpl.
    + rewrite Hfresh. by eexists.
    + by eexists.
  - rewrite (cache_get_miss _ (cache s) Hlook). simpl.
    rewrite Hfresh. by eexists.
Qed.

(** X7 (search, repeated). A search that is repeated at once on the
    store it left behind returns the same list, whatever the state of the
    cache and its capacity. *)
Lemma search_twice_same (query : string) (k : Z) (s s1 : VectorStore)
    (r : list result) :
  search query k s = (Ok r, s1) →
  ∃ s2, search query k s1 = (Ok r, s2).
Proof.
  intros Hsearch.
  destruct (index s) as [idx|] eqn:Hidx.
  - destruct (chunks s) as [|c cs] eqn:Hcs.
    + rewrite search_unbuilt in Hsearch by (by right).
      injection Hsearch as <- <-. exists s. apply search_unbuilt. by right.
    + assert (Hne : chunks s ≠ []) by (by rewrite Hcs).
      destruct (search_built_cases query k s s1 idx r Hidx Hne Hsearch)
        as (Hidx1 & Hcs1 & [[Hr Hlook]|[Hfresh Hlook]]).
      * apply search_returns_cached; [|done | done].
        intros [Hi|Hc]; [by rewrite Hidx1 in Hi | by rewrite Hcs1 in Hc].
      * apply (search_from_fresh query k s1 idx r); try done.
        -- by rewrite Hcs1.
        -- by rewrite Hcs1.
  - rewrite search_unbuilt in Hsearch by (by left).
    injection Hsearch as <- <-. exists s. apply search_unbuilt. by left.
Qed.

End SearchCache.

Section SearchOrder.
Context `{Backend}.

(** The result list keeps the hits of the index in their order: the
    scores of the results are a sublist of the scores of the hits, so
    whatever order the index delivers is the order of the answer. *)
Lemma collect_results_scores (cs : list loc) (hits : list (F * Z))
    (rs : list result) :
  collect_results cs hits = Ok rs →
  sublist (snd <$> rs) (fst <$> hits) ∧ (length rs ≤ length hits)%nat.
Proof.
  revert rs. induction hits as [|[dist idx] hits IH]; intros rs.
  - intros [= <-]. split; [constructor | done].
  - simpl. destruct (idx <? Z.of_nat (length cs)).
    + destruct (chunk_at cs idx) as [c|]; [|discriminate].
      destruct (collect_results cs hits) as [rs'|e]; [|discriminate].
      intros [= <-]. destruct (IH rs' eq_refl) as [Hsub Hlen].
      split; [by apply sublist_skip | simpl; lia].
    + intros Hrs. destruct (IH rs Hrs) as [Hsub Hlen].
      split; [by apply sublist_cons | simpl; lia].
Qed.

Lemma StronglySorted_sublist {A} (R : relation A) (l1 l2 : list A) :
  sublist l1 l2 → StronglySorted R l2 → StronglySorted R l1.
Proof.
  induction 1 as [|x l1 l2 Hsub IH|x l1 l2 Hsub IH]; intros Hsorted.
  - constructor.
  - apply StronglySorted_inv in Hsorted as [Hsorted Hall].
    constructor; [by apply IH |].
    apply Forall_forall. intros y Hy. rewrite Forall_forall in Hall.
    apply Hall. by eapply elem_of_sublist.
  - apply StronglySorted_inv in Hsorted as [Hsorted _]. by apply IH.
Qed.

(** In particular, scores that the index delivers in sorted order (for
    any order [R] on scores) are sorted in the answer. *)
Lemma collect_results_sorted (R : relation F) (cs : list loc)
    (hits : list (F * Z)) (rs : list result) :
  collect_results cs hits = Ok rs →
  StronglySorted R (fst <$> hits) → StronglySorted R (snd <$> rs).
Proof.
  intros Hrs. apply StronglySorted_sublist.
  by apply (collect_results_scores cs hits rs).
Qed.

(** X11 (search, number of results). With nothing cached for the key,
    and an index that hands back at most the number of hits it was asked
    for, a search has at most [min(k, len(chunks))] results. *)
Lemma search_miss_clamped (query : string) (k : Z) (s s1 : VectorStore)
    (r : list result) :
  (∀ rows q k' hits, ip_search rows q k' = Some hits →
                      Z.of_nat (length hits) ≤ Z.max 0 k') →
  od_lookup (sha256_hexdigest query, k) (data (cache s)) = None →
  search query k s = (Ok r, s1) →
  Z.of_nat (length r) ≤ Z.max 0 (Z.min k (Z.of_nat (length (chunks s)))).
Proof.
  intros Hfaiss Hmiss. rewrite search_unfold.
  destruct (index s) as [idx|]; [|intros [= <- <-]; simpl; lia].
  destruct (_ =? 0); [intros [= <- <-]; simpl; lia |].
  cbv zeta. rewrite (cache_get_miss _ (cache s) Hmiss). simpl.
  unfold fresh_results.
  destruct (encode [VStr query]) as [q_emb|]; [|discriminate].
  destruct (_normalize q_emb) as [|q rest]; [discriminate |].
  destruct (ip_search _ _ _) as [hits|] eqn:Hhits; [|discriminate].
  destruct (collect_results _ _) as [results|e] eqn:Hcollect; [|discriminate].
  intros [= <- <-]. apply collect_results_scores in Hcollect as [_ Hlen].
  specialize (Hfaiss idx q (Z.min k (Z.of_nat (length (chunks s)))) hits Hhits).
  lia.
Qed.

End SearchOrder.

Section CacheAcrossRebuild.
Context `{Backend}.

(** [clear] is the one operation that gives the store a new cache. *)
Lemma clear_resets_cache (s : VectorStore) :
  clear s = (Ok (), init) ∧ data (cache (clear s).2) = [].
Proof. done. Qed.

(** C2 at a failing input: [create_from_chunks] does not touch the cache
    (only [clear] resets it). After a search has answered [(query, k)]
    with a non-empty list, a rebuild of the same store with any chunk list
    leaves that entry in the cache, and the same search on the rebuilt
    store returns the list computed before the rebuild. *)
Theorem rebuild_keeps_cached_answers (h : pyheap) (query : string) (k : Z)
    (s s1 : VectorStore) (r : list result) (cs : list loc) :
  0 < capacity (cache s) →
  search query k s = (Ok r, s1) → r ≠ [] →
  let rebuilt := (create_from_chunks cs (h, s1)).2.2 in
  cache rebuilt = cache s1
  ∧ od_lookup (sha256_hexdigest query, k) (data (cache rebuilt)) = Some r
  ∧ chunks rebuilt = cs
  ∧ (¬ unbuilt rebuilt → ∃ s3, search query k rebuilt = (Ok r, s3)).
Proof.
  intros Hcap Hsearch Hr rebuilt.
  destruct (search_after_rebuild h query k s s1 r cs Hcap Hsearch Hr)
    as (Hcache & Hcs & Hstale).
  fold rebuilt in Hcache, Hcs, Hstale.
  split; [done |]. split; [|done]. rewrite Hcache.
  by apply (search_caches_answer query k s s1 r Hcap Hsearch).
Qed.

(** C3 at a failing input: when a store that answered [(query, k)] with
    the list [r] is rebuilt from fewer chunks than [r] has results, the
    same search returns [r] again, which is longer than
    [min(k, number of indexed chunks)]. *)
Theorem stale_answer_exceeds_clamp (h : pyheap) (query : string) (k : Z)
    (s s1 : VectorStore) (r : list result) (cs : list loc) :
  0 < capacity (cache s) →
  search query k s = (Ok r, s1) →
  (length cs < length r)%nat →
  let rebuilt := (create_from_chunks cs (h, s1)).2.2 in
  ¬ unbuilt rebuilt →
  ∃ s3, search query k rebuilt = (Ok r, s3)
        ∧ Z.min k (Z.of_nat (length (chunks rebuilt))) < Z.of_nat (length r).
Proof.
  intros Hcap Hsearch Hlen rebuilt Hbuilt.
  assert (Hr : r ≠ []) by (intros ->; simpl in Hlen; lia).
  destruct (search_after_rebuild h query k s s1 r cs Hcap Hsearch Hr)
    as (_ & Hcs & Hstale).
  fold rebuilt in Hcs, Hstale. destruct (Hstale Hbuilt) as [s3 Hs3].
  exists s3. split; [done |]. rewrite Hcs. lia.
Qed.

End CacheAcrossRebuild.

Section ConcreteRuns.

Lemma example_built_is_built : ¬ @unbuilt Toy.backend Toy.example_built.2.
Proof. intros [Hidx|Hcs]; [vm_compute in Hidx | vm_compute in Hcs]; discriminate. Qed.

Lemma example_single_is_built : ¬ @unbuilt Toy.backend Toy.example_single.2.
Proof. intros [Hidx|Hcs]; [vm_compute in Hidx | vm_compute in Hcs]; discriminate. Qed.

(** The context as a whole is not bounded: a store built from the single
    chunk {'text': 'abcdefghij', 'page': 1} and asked for a context of at most 5
    characters returns "[Unknown - Page 1]", a newline and "abcde...",
    27 characters in all, more than 5 + 3. *)
Lemma context_exceeds_budget :
  ¬ (∀ (B : Backend) (h : pyheap) (query : string) (k max_context_length : Z)
       (s s' : VectorStore) (ctx : string) (srcs : list SourceCitation),
       ¬ unbuilt s → 0 < max_context_length →
       get_context_for_query h query k max_context_length s
         = (Ok (ctx, srcs), s') →
       Py.len ctx ≤ max_context_length + Py.len truncation_marker).
Proof.
  intros Hbound.
  destruct (@get_context_for_query Toy.backend Toy.example_single.1 "q" 1 5
                 Toy.example_single.2) as [[[ctx srcs]|e] s'] eqn:Hrun;
    [|vm_compute in Hrun; discriminate Hrun].
  specialize (Hbound Toy.backend Toy.example_single.1 "q" 1 5
                Toy.example_single.2 s' ctx srcs example_single_is_built
                ltac:(lia) Hrun).
  vm_compute in Hrun. injection Hrun as <- _ _.
  vm_compute in Hbound. by destruct Hbound.
Qed.

(** With a budget of 2 the first chunk is cut to its first two characters
    and no marker follows, since [remaining > 3] does not hold. *)
Lemma short_budget_no_marker :
  (@get_context_for_query Toy.backend Toy.example_single.1 "q" 1 2
     Toy.example_single.2).1
  = Ok ("[Unknown - Page 1]" +:+ newline +:+ "ab",
        [@cite Toy.backend Toy.example_single.1 (0%nat, 11)]).
Proof. vm_compute. reflexivity. Qed.

Lemma context_bodies_within_budget_witness :
  ∃ bodies : list string,
    (length bodies ≤ 2)%nat
    ∧ sum_len bodies ≤ 11 + Py.len truncation_marker.
Proof.
  edestruct (@context_bodies_within_budget Toy.backend Toy.example_built.1
               "q" 2 11 Toy.example_built.2)
    as (results & bodies & Hsearch & Hlen & _ & Hsum & _).
  - reflexivity.
  - vm_compute. reflexivity.
  - exists bodies. split; [|exact Hsum].
    vm_compute in Hsearch. injection Hsearch as <-. exact Hlen.
Defined.

Lemma citations_parallel_to_context_witness :
  ∃ cit : @SourceCitation Toy.backend,
    text cit = VStr "abcdefghij" ∧ page cit = VInt 1
    ∧ relevance_score cit = 11.
Proof.
  edestruct (@citations_parallel_to_context Toy.backend Toy.example_built.1
               "q" 2 5 Toy.example_built.2)
    as (results & bodies & Hsearch & _ & _ & _ & _ & _ & _ & Hsrcs & Hcit).
  - vm_compute. reflexivity.
  - vm_compute in Hsearch. injection Hsearch as <-.
    destruct (Hcit 0%nat 0%nat 11) as (cit & txt & _ & Htxt & Htext & _ & _ & Hpage & Hscore).
    + rewrite <- Hsrcs. simpl. lia.
    + reflexivity.
    + exists cit. vm_compute in Htxt. injection Htxt as <-.
      split; [exact Htext |]. split; [exact Hpage | exact Hscore].
Defined.

Lemma rebuild_keeps_cached_answers_witness :
  let s1 := (@search Toy.backend "q" 2 Toy.example_built.2).2 in
  let rebuilt :=
    (@create_from_chunks Toy.backend [2%nat] (Toy.example_built.1, s1)).2.2 in
  chunks rebuilt = [2%nat]
  ∧ ∃ s3, @search Toy.backend "q" 2 rebuilt
          = (Ok [(0%nat, 11); (1%nat, 3)], s3).
Proof.
  intros s1 rebuilt.
  destruct (@rebuild_keeps_cached_answers Toy.backend Toy.example_built.1
              "q" 2 Toy.example_built.2 s1 [(0%nat, 11); (1%nat, 3)] [2%nat])
    as (_ & _ & Hcs & Hstale).
  - reflexivity.
  - vm_compute. reflexivity.
  - discriminate.
  - split; [exact Hcs |]. apply Hstale.
    intros [Hidx|Hchunks]; [vm_compute in Hidx | vm_compute in Hchunks];
      discriminate.
Defined.

Lemma stale_answer_exceeds_clamp_witness :
  let s1 := (@search Toy.backend "q" 2 Toy.example_built.2).2 in
  let rebuilt :=
    (@create_from_chunks Toy.backend [2%nat] (Toy.example_built.1, s1)).2.2 in
  ∃ s3, @search Toy.backend "q" 2 rebuilt = (Ok [(0%nat, 11); (1%nat, 3)], s3)
        ∧ Z.min 2 (Z.of_nat (length (chunks rebuilt))) < 2.
Proof.
  intros s1 rebuilt.
  apply (@stale_answer_exceeds_clamp Toy.backend Toy.example_built.1
           "q" 2 Toy.example_built.2 s1 [(0%nat, 11); (1%nat, 3)] [2%nat]).
  - reflexivity.
  - vm_compute. reflexivity.
  - simpl. lia.
  - intros [Hidx|Hchunks]; [vm_compute in Hidx | vm_compute in Hchunks];
      discriminate.
Defined.

End ConcreteRuns.

Section MoreConcreteRuns.

Lemma page_map_covers_page_text_witness :
  let doc := [ {| get_text := "ab"; ocr_text := None |};
               {| get_text := " cd "; ocr_text := None |};
               {| get_text := "e"; ocr_text := None |} ] in
  let pm := (extract_text_from_pdf false doc).2 in
  pm !! 4 = Some 2 ∧ pm !! 5 = Some 2 ∧ pm !! 6 = None ∧ pm !! 7 = None.
Proof.
  intros doc pm.
  destruct (page_map_covers_page_text false
              [ {| get_text := "ab"; ocr_text := None |} ]
              [ {| get_text := "e"; ocr_text := None |} ]
              {| get_text := " cd "; ocr_text := None |})
    as (_ & Hmapped & Hsep1 & Hsep2).
  split; [exact (Hmapped 0 ltac:(done)) |].
  split; [exact (Hmapped 1 ltac:(done)) |].
  split; [exact Hsep1 | exact Hsep2].
Defined.

Lemma create_from_empty_list_witness :
  let r := @create_from_chunks Toy.backend [] Toy.example_built in
  chunks r.2.2 = []
  ∧ @search Toy.backend "q" 2 r.2.2 = (Ok [], r.2.2)
  ∧ @get_context_for_query Toy.backend r.2.1 "q" 2 3000 r.2.2
    = (Ok ("", []), r.2.2).
Proof.
  intros r.
  destruct (@create_from_empty_list Toy.backend Toy.example_built.1
              Toy.example_built.2)
    as (_ & Hcs & _ & _ & Hsearch & Hctx).
  split; [exact Hcs |]. split; [apply Hsearch | apply Hctx].
Defined.

Lemma create_from_chunks_inserts_document_witness :
  let h := (@create_from_chunks Toy.backend [0%nat; 1%nat]
              (Toy.example_heap, @init Toy.backend)).2.1 in
  (h !!! 0%nat : gmap string pyval) !! "document" = Some (VStr "Unknown")
  ∧ (h !!! 1%nat : gmap string pyval) !! "document" = Some (VStr "a.pdf")
  ∧ (h !!! 1%nat : gmap string pyval) !! "page" = Some (VInt 2)
  ∧ h !! 2%nat = Toy.example_heap !! 2%nat.
Proof.
  intros h.
  destruct (@create_from_chunks_inserts_document Toy.backend [0%nat; 1%nat]
              Toy.example_heap (@init Toy.backend))
    as (Hin & Hout & _).
  split; [exact (Hin 0%nat "document" ltac:(set_solver)) |].
  split; [exact (Hin 1%nat "document" ltac:(set_solver)) |].
  split; [exact (Hin 1%nat "page" ltac:(set_solver)) |].
  apply Hout. rewrite !not_elem_of_cons.
  split; [done |]. split; [done | apply not_elem_of_nil].
Defined.

End MoreConcreteRuns.

(* ===================================================================== *)
(** * Further properties: the LRU cache                                   *)
(* ===================================================================== *)

Section CacheLaws.
Context `{Backend}.

Lemma od_lookup_snoc_other (key k' : cache_key) (v : list result)
    (d : list (cache_key * list result)) :
  k' ≠ key → od_lookup k' (d ++ [(key, v)]) = od_lookup k' d.
Proof.
  intros Hne. induction d as [|[k0 v0] d IH]; simpl.
  - by rewrite decide_False.
  - by destruct (decide (k0 = k')).
Qed.

Lemma od_lookup_filter_other (key k' : cache_key)
    (d : list (cache_key * list result)) :
  k' ≠ key → od_lookup k' (filter (λ kv, kv.1 ≠ key) d) = od_lookup k' d.
Proof.
  intros Hne. induction d as [|[k0 v0] d IH]; [done |].
  rewrite filter_cons. simpl. destruct (decide (k0 ≠ key)) as [Hk|Hk]; simpl.
  - by destruct (decide (k0 = k')).
  - apply dec_stable in Hk. subst k0. by rewrite decide_False.
Qed.

Lemma od_lookup_setitem_other (key k' : cache_key) (value : list result)
    (d : list (cache_key * list result)) :
  k' ≠ key → od_lookup k' (od_setitem key value d) = od_lookup k' d.
Proof.
  intros Hne. induction d as [|[k0 v0] d IH]; simpl.
  - by rewrite decide_False.
  - destruct (decide (k0 = key)) as [->|Hk]; simpl.
    + by rewrite !decide_False.
    + by destruct (decide (k0 = k')).
Qed.

Lemma od_lookup_None (key : cache_key) (d : list (cache_key * list result)) :
  od_lookup key d = None ↔ key ∉ d.*1.
Proof.
  induction d as [|[k0 v0] d IH]; simpl.
  - split; [intros _; apply not_elem_of_nil | done].
  - rewrite not_elem_of_cons. destruct (decide (k0 = key)) as [->|Hk].
    + split; [done | by intros [? _]].
    + rewrite IH. split; [by intros ?; split | by intros [_ ?]].
Qed.

Lemma od_move_to_end_lookup (key k' : cache_key)
    (d : list (cache_key * list result)) :
  od_lookup k' (od_move_to_end key d) = od_lookup k' d.
Proof.
  unfold od_move_to_end. destruct (od_lookup key d) as [v|] eqn:Hkey; [|done].
  destruct (decide (k' = key)) as [->|Hne].
  - rewrite od_lookup_app_fresh by apply filter_others_fresh.
    simpl. by rewrite decide_True.
  - by rewrite od_lookup_snoc_other, od_lookup_filter_other.
Qed.

Lemma od_setitem_fresh (key : cache_key) (value : list result)
    (d : list (cache_key * list result)) :
  key ∉ d.*1 → od_setitem key value d = d ++ [(key, value)].
Proof.
  induction d as [|[k0 v0] d IH]; [done |]. simpl.
  rewrite not_elem_of_cons. intros [Hne Hd].
  rewrite decide_False by done. by rewrite IH.
Qed.

Lemma filter_others_id (key : cache_key) (d : list (cache_key * list result)) :
  key ∉ d.*1 → filter (λ kv, kv.1 ≠ key) d = d.
Proof.
  induction d as [|[k0 v0] d IH]; [done |]. simpl.
  rewrite not_elem_of_cons. intros [Hne Hd].
  rewrite filter_cons_True by done. by rewrite IH.
Qed.

Lemma od_setitem_length (key : cache_key) (value : list result)
    (d : list (cache_key * list result)) :
  (length (od_setitem key value d) ≤ S (length d))%nat
  ∧ (key ∈ d.*1 → length (od_setitem key value d) = length d).
Proof.
  induction d as [|[k0 v0] d [IHle IHeq]]; simpl.
  - split; [lia | by intros ?%elem_of_nil].
  - destruct (decide (k0 = key)) as [->|Hk]; simpl; [split; [lia | done] |].
    split; [lia |]. intros [?|Hin]%elem_of_cons; [done |]. by rewrite IHeq.
Qed.

Lemma od_move_to_end_length (key : cache_key)
    (d : list (cache_key * list result)) :
  (length (od_move_to_end key d) ≤ length d)%nat.
Proof.
  unfold od_move_to_end. destruct (od_lookup key d) as [v|] eqn:Hkey; [|done].
  rewrite length_app. simpl.
  induction d as [|[k0 v0] d IH]; [done |].
  simpl in Hkey. rewrite filter_cons. simpl.
  destruct (decide (k0 = key)) as [->|Hk].
  - rewrite decide_False by (by intros ?).
    pose proof (length_filter (λ kv : cache_key * list result, kv.1 ≠ key) d).
    lia.
  - rewrite decide_True by done. simpl. specialize (IH Hkey). lia.
Qed.

Lemma od_setitem_keys (key : cache_key) (value : list result)
    (d : list (cache_key * list result)) :
  NoDup d.*1 → NoDup (od_setitem key value d).*1.
Proof.
  intros Hnd. destruct (decide (key ∈ d.*1)) as [Hin|Hout].
  - assert (Hkeys : (od_setitem key value d).*1 = d.*1); [|by rewrite Hkeys].
    clear Hnd. induction d as [|[k0 v0] d IH]; simpl.
    + by apply elem_of_nil in Hin.
    + destruct (decide (k0 = key)) as [->|Hk]; simpl; [done |].
      simpl in Hin. apply elem_of_cons in Hin as [?|Hin]; [done |].
      f_equal. by apply IH.
  - rewrite od_setitem_fresh by done. rewrite fmap_app. simpl.
    apply NoDup_app. split; [done |]. split; [|apply NoDup_singleton].
    intros k Hk ->%list_elem_of_singleton. done.
Qed.

Lemma od_move_to_end_keys (key : cache_key)
    (d : list (cache_key * list result)) :
  NoDup d.*1 → NoDup (od_move_to_end key d).*1.
Proof.
  intros Hnd. unfold od_move_to_end.
  destruct (od_lookup key d) as [v|]; [|done].
  rewrite fmap_app. simpl. apply NoDup_app. split; [|split].
  - eapply sublist_NoDup; [exact Hnd |]. apply fmap_sublist, sublist_filter.
  - intros k Hk ->%list_elem_of_singleton.
    apply list_elem_of_fmap in Hk as ([k0 v0] & -> & Hin).
    by apply list_elem_of_filter in Hin as [? _].
  - apply NoDup_singleton.
Qed.

End CacheLaws.

Section CacheTheorems.
Context `{Backend}.

Lemma od_set_fresh (key : cache_key) (value : list result)
    (d : list (cache_key * list result)) :
  key ∉ d.*1 →
  od_move_to_end key (od_setitem key value d) = d ++ [(key, value)].
Proof.
  intros Hfresh. rewrite od_setitem_fresh by done. unfold od_move_to_end.
  assert (Hall : Forall (λ kv : cache_key * list result, kv.1 ≠ key) d).
  { apply Forall_forall. intros [k0 v0] Hin Heq. simpl in Heq. subst k0.
    apply Hfresh, list_elem_of_fmap. by exists (key, v0). }
  rewrite od_lookup_app_fresh by done.
  simpl. rewrite decide_True by done.
  rewrite filter_app, filter_others_id by done.
  rewrite filter_cons_False by (simpl; by intros ?).
  by rewrite filter_nil, app_nil_r.
Qed.

(** What [set] does to the entries of other keys, as long as the cache
    was within its capacity: nothing, unless the key is the oldest one
    and has to make room. *)
Lemma cache_set_other (key k' : cache_key) (value : list result)
    (c : SimpleLRUCache) :
  Z.of_nat (length (data c)) ≤ capacity c →
  k' ≠ key →
  (∀ v0, head (data c) ≠ Some (k', v0)) →
  od_lookup k' (data (cache_set key value c)) = od_lookup k' (data c).
Proof.
  intros Hlen Hne Hhead. unfold cache_set. simpl.
  set (d1 := od_setitem key value (data c)).
  set (d2 := od_move_to_end key d1).
  assert (Hd2 : od_lookup k' d2 = od_lookup k' (data c)).
  { subst d2 d1. by rewrite od_move_to_end_lookup, od_lookup_setitem_other. }
  destruct (capacity c <? Z.of_nat (length d2)) eqn:Hfull; [|done].
  pose proof (od_move_to_end_length key d1) as Hl2. fold d2 in Hl2.
  destruct (od_setitem_length key value (data c)) as [Hl1 Hl1eq].
  fold d1 in Hl1, Hl1eq.
  assert (Hfresh : key ∉ (data c).*1).
  { intros Hin. specialize (Hl1eq Hin). lia. }
  subst d2 d1. rewrite od_set_fresh by done.
  destruct (data c) as [|[k0 v0] rest]; [done |].
  simpl. rewrite od_lookup_snoc_other by done.
  rewrite decide_False; [done |].
  intros ->. by apply (Hhead v0).
Qed.

Lemma filter_others_nil (key : cache_key) (d : list (cache_key * list result)) :
  NoDup d.*1 → filter (λ kv, kv.1 ≠ key) d = [] → (length d ≤ 1)%nat.
Proof.
  destruct d as [|[k0 v0] d]; [simpl; lia |].
  intros Hnd Hfilter. rewrite filter_cons in Hfilter. simpl in Hfilter.
  destruct (decide (k0 ≠ key)) as [?|Hk]; [done |].
  apply dec_stable in Hk. subst k0.
  destruct d as [|[k1 v1] d]; [simpl; lia |].
  rewrite filter_cons in Hfilter. simpl in Hfilter.
  destruct (decide (k1 ≠ key)) as [?|Hk]; [done |].
  apply dec_stable in Hk. subst k1.
  simpl in Hnd. apply NoDup_cons in Hnd as [Hnotin _].
  destruct Hnotin. apply list_elem_of_here.
Qed.

(** X1: with a positive capacity, a value that was just written under a
    key is what [get] returns for that key. *)
Theorem cache_set_then_get (key : cache_key) (value : list result)
    (c : SimpleLRUCache) :
  0 < capacity c →
  (cache_get key (cache_set key value c)).1 = Some value.
Proof.
  intros Hcap. destruct (cache_set_lookup key value c Hcap) as [Hlook _].
  by destruct (cache_get_hit key value (cache_set key value c) Hlook) as [-> _].
Qed.

(** X2: a cache that holds at most [capacity] entries under distinct keys
    still does so after [set] and after [get]. *)
Theorem cache_stays_within_capacity (key : cache_key) (value : list result)
    (c : SimpleLRUCache) :
  0 ≤ capacity c →
  Z.of_nat (length (data c)) ≤ capacity c →
  NoDup (data c).*1 →
  (Z.of_nat (length (data (cache_set key value c))) ≤ capacity c
   ∧ NoDup (data (cache_set key value c)).*1)
  ∧ (Z.of_nat (length (data (cache_get key c).2)) ≤ capacity c
     ∧ NoDup (data (cache_get key c).2).*1).
Proof.
  intros Hcap Hlen Hnd. split.
  - unfold cache_set. simpl.
    set (d2 := od_move_to_end key (od_setitem key value (data c))).
    assert (Hnd2 : NoDup d2.*1) by (by apply od_move_to_end_keys, od_setitem_keys).
    assert (Hl2 : (length d2 ≤ S (length (data c)))%nat).
    { pose proof (od_move_to_end_length key (od_setitem key value (data c))).
      destruct (od_setitem_length key value (data c)) as [? _]. subst d2. lia. }
    destruct (capacity c <? Z.of_nat (length d2)) eqn:Hfull.
    + apply Z.ltb_lt in Hfull.
      destruct d2 as [|kv d2]; cbn [length tail] in *; [lia |].
      split; [lia |]. rewrite fmap_cons in Hnd2.
      by apply NoDup_cons in Hnd2 as [_ ?].
    + apply Z.ltb_ge in Hfull. split; [lia | done].
  - unfold cache_get. destruct (od_lookup key (data c)); simpl; [|done].
    split; [|by apply od_move_to_end_keys].
    pose proof (od_move_to_end_length key (data c)). lia.
Qed.

(** X3: writing a key that is not in the cache appends it as the newest
    entry; when the cache is full, the oldest entry (and only that one) is
    dropped to make room. *)
Theorem cache_set_evicts_oldest (key : cache_key) (value : list result)
    (c : SimpleLRUCache) :
  key ∉ (data c).*1 →
  (Z.of_nat (length (data c)) < capacity c →
   data (cache_set key value c) = data c ++ [(key, value)])
  ∧ (∀ oldest rest,
       data c = oldest :: rest →
       Z.of_nat (length (data c)) = capacity c →
       data (cache_set key value c) = rest ++ [(key, value)]).
Proof.
  intros Hfresh.
  pose proof (od_set_fresh key value (data c) Hfresh) as Hd2.
  unfold cache_set. cbn [data]. rewrite Hd2, length_app. cbn [length]. split.
  - intros Hroom. destruct (capacity c <? _) eqn:Hfull; [|done].
    apply Z.ltb_lt in Hfull. lia.
  - intros oldest rest Hdata Hfull. rewrite Hdata in *.
    destruct (capacity c <? _) eqn:Hcmp; [done |].
    apply Z.ltb_ge in Hcmp. cbn [length] in *. lia.
Qed.

(** X4: [get] answers with the value stored under the key and changes no
    stored value: afterwards every key maps to what it mapped to before. *)
Theorem cache_get_keeps_values (key k' : cache_key) (c : SimpleLRUCache) :
  (cache_get key c).1 = od_lookup key (data c)
  ∧ od_lookup k' (data (cache_get key c).2) = od_lookup k' (data c).
Proof.
  unfold cache_get. destruct (od_lookup key (data c)) as [v|] eqn:Hkey; simpl.
  - split; [done |]. apply od_move_to_end_lookup.
  - done.
Qed.

(** X5: in a cache within its capacity, [set] leaves the entry of every
    other key as it was, except possibly that of the oldest key. *)
Theorem cache_set_keeps_others (key k' : cache_key) (value : list result)
    (c : SimpleLRUCache) :
  Z.of_nat (length (data c)) ≤ capacity c →
  k' ≠ key →
  (∀ v0, head (data c) ≠ Some (k', v0)) →
  od_lookup k' (data (cache_set key value c)) = od_lookup k' (data c).
Proof. apply cache_set_other. Qed.

(** X6: least-recently-used order: in a full cache of at least two
    entries, an entry that was just read survives the next write of a new
    key. *)
Theorem recently_read_survives (key key2 : cache_key) (v value2 : list result)
    (c : SimpleLRUCache) :
  NoDup (data c).*1 →
  Z.of_nat (length (data c)) = capacity c →
  2 ≤ capacity c →
  od_lookup key (data c) = Some v →
  key2 ∉ (data c).*1 →
  od_lookup key (data (cache_set key2 value2 (cache_get key c).2)) = Some v.
Proof.
  intros Hnd Hlen Hcap Hkey Hfresh.
  destruct (cache_get_hit key v c Hkey) as (_ & Hstill & Hcap').
  rewrite <- Hstill. apply cache_set_other.
  - rewrite Hcap'. unfold cache_get. rewrite Hkey. simpl.
    pose proof (od_move_to_end_length key (data c)). lia.
  - intros ->. by apply od_lookup_None in Hfresh; rewrite Hfresh in Hkey.
  - intros v0 Hhead. unfold cache_get in Hhead. rewrite Hkey in Hhead.
    simpl in Hhead. unfold od_move_to_end in Hhead. rewrite Hkey in Hhead.
    destruct (filter (λ kv, kv.1 ≠ key) (data c)) as [|[k0 w0] rest] eqn:Hfilter.
    + pose proof (filter_others_nil key (data c) Hnd Hfilter). lia.
    + simpl in Hhead. injection Hhead as -> ->.
      assert (Hin : (key, v0) ∈ filter (λ kv, kv.1 ≠ key) (data c))
        by (rewrite Hfilter; apply list_elem_of_here).
      by apply list_elem_of_filter in Hin as [? _].
Qed.

End CacheTheorems.

Section CacheRuns.

Lemma example_cache_keys : NoDup (data Toy.example_cache).*1.
Proof. by apply (bool_decide_unpack _). Qed.

Lemma cache_set_then_get_witness :
  (@cache_get Toy.backend ("c", 3)
     (@cache_set Toy.backend ("c", 3) [(1%nat, 7)] Toy.example_cache)).1
  = Some [(1%nat, 7)].
Proof. apply (@cache_set_then_get Toy.backend). reflexivity. Defined.

Lemma cache_stays_within_capacity_witness :
  Z.of_nat (length (data (@cache_set Toy.backend ("c", 3) [(1%nat, 7)]
                            Toy.example_cache))) ≤ 2
  ∧ NoDup (data (@cache_set Toy.backend ("c", 3) [(1%nat, 7)]
                   Toy.example_cache)).*1.
Proof.
  apply (@cache_stays_within_capacity Toy.backend ("c", 3) [(1%nat, 7)]
           Toy.example_cache).
  - discriminate.
  - discriminate.
  - exact example_cache_keys.
Defined.

Lemma cache_set_evicts_oldest_witness :
  data (@cache_set Toy.backend ("c", 3) [(1%nat, 7)] Toy.example_cache)
  = [ (("b", 1), [(1%nat, 4)]); (("c", 3), [(1%nat, 7)]) ].
Proof.
  destruct (@cache_set_evicts_oldest Toy.backend ("c", 3) [(1%nat, 7)]
              Toy.example_cache) as [_ Hfull].
  - by apply (bool_decide_unpack _).
  - apply (Hfull (("a", 1), [(0%nat, 5)]) [ (("b", 1), [(1%nat, 4)]) ]);
      reflexivity.
Defined.

Lemma cache_set_keeps_others_witness :
  @od_lookup Toy.backend ("b", 1)
    (data (@cache_set Toy.backend ("c", 3) [(1%nat, 7)] Toy.example_cache))
  = Some [(1%nat, 4)].
Proof.
  apply (@cache_set_keeps_others Toy.backend ("c", 3) ("b", 1) [(1%nat, 7)]
           Toy.example_cache).
  - discriminate.
  - discriminate.
  - intros v0. discriminate.
Defined.

Lemma recently_read_survives_witness :
  @od_lookup Toy.backend ("a", 1)
    (data (@cache_set Toy.backend ("c", 3) [(1%nat, 7)]
             (@cache_get Toy.backend ("a", 1) Toy.example_cache).2))
  = Some [(0%nat, 5)].
Proof.
  apply (@recently_read_survives Toy.backend).
  - exact example_cache_keys.
  - reflexivity.
  - discriminate.
  - reflexivity.
  - by apply (bool_decide_unpack _).
Defined.

End CacheRuns.

(* ===================================================================== *)
(** * Further properties: building and searching the store                *)
(* ===================================================================== *)

Section StoreLaws.
Context `{Backend}.

Lemma cache_get_capacity (key : cache_key) (c : SimpleLRUCache) :
  capacity (cache_get key c).2 = capacity c.
Proof. unfold cache_get. by destruct (od_lookup key (data c)). Qed.

Lemma cache_get_lookup (key k' : cache_key) (c : SimpleLRUCache) :
  od_lookup k' (data (cache_get key c).2) = od_lookup k' (data c).
Proof.
  unfold cache_get. destruct (od_lookup key (data c)) eqn:Hkey; [|done].
  apply od_move_to_end_lookup.
Qed.

(** The store a search leaves behind, for every outcome. *)
Lemma search_frame (query : string) (k : Z) (s : VectorStore) :
  let r := search query k s in
  index r.2 = index s ∧ chunks r.2 = chunks s
  ∧ embeddings r.2 = embeddings s
  ∧ capacity (cache r.2) = capacity (cache s)
  ∧ (∀ e, r.1 = Raise e →
       (e = ExternalError ∨ e = IndexError)
       ∧ ∀ key, od_lookup key (data (cache r.2)) = od_lookup key (data (cache s))).
Proof.
  assert (Hcollect : ∀ cs hits e,
            collect_results cs hits = Raise e → e = IndexError).
  { intros cs hits e. induction hits as [|[dist i] hits IH]; simpl; [done |].
    destruct (i <? _); [|exact IH].
    destruct (chunk_at cs i); [|by intros [= <-]].
    destruct (collect_results cs hits); [done |].
    intros [= <-]. by apply IH. }
  cbv zeta. rewrite search_unfold.
  destruct (index s) as [idx|] eqn:Hidx; [|by repeat split].
  destruct (_ =? 0); [by repeat split |].
  cbv zeta. set (key := (sha256_hexdigest query, k)).
  destruct (is_nonempty _).
  { simpl. rewrite cache_get_capacity. by repeat split. }
  destruct (fresh_results _ _ _ _) as [results|e0] eqn:Hfresh; simpl.
  { rewrite cache_get_capacity. by repeat split. }
  rewrite cache_get_capacity.
  split; [done |]. split; [done |]. split; [done |]. split; [done |].
  intros e [= <-]. split; [|intros key'; apply cache_get_lookup].
  unfold fresh_results in Hfresh.
  destruct (encode [VStr query]) as [q_emb|]; [|injection Hfresh as <-; by left].
  destruct (_normalize q_emb) as [|q rest]; [injection Hfresh as <-; by right |].
  destruct (ip_search _ _ _) as [hits|]; [|injection Hfresh as <-; by left].
  right. by eapply Hcollect.
Qed.

Lemma chunk_at_member (cs : list loc) (idx : Z) (c : loc) :
  chunk_at cs idx = Some c → c ∈ cs.
Proof.
  unfold chunk_at. destruct (idx <? 0).
  - destruct (0 <=? _); [|done]. apply list_elem_of_lookup_2.
  - apply list_elem_of_lookup_2.
Qed.

Lemma collect_results_members (cs : list loc) (hits : list (F * Z))
    (rs : list result) :
  collect_results cs hits = Ok rs →
  ∀ c score, (c, score) ∈ rs →
    c ∈ cs ∧ ∃ idx, (score, idx) ∈ hits ∧ chunk_at cs idx = Some c.
Proof.
  revert rs. induction hits as [|[dist i] hits IH]; intros rs; simpl.
  - intros [= <-] c score Hin. by apply elem_of_nil in Hin.
  - destruct (i <? _).
    + destruct (chunk_at cs i) as [c0|] eqn:Hat; [|done].
      destruct (collect_results cs hits) as [rs'|]; [|done].
      intros [= <-] c score [Heq|Hin]%elem_of_cons.
      * injection Heq as -> ->. split; [by eapply chunk_at_member |].
        exists i. split; [apply list_elem_of_here | done].
      * destruct (IH rs' eq_refl c score Hin) as (Hc & idx & Hhit & Hat').
        split; [done |]. exists idx. split; [by apply list_elem_of_further | done].
    + intros Hrs c score Hin.
      destruct (IH rs Hrs c score Hin) as (Hc & idx & Hhit & Hat').
      split; [done |]. exists idx. split; [by apply list_elem_of_further | done].
Qed.

(** Without an entry for the key, a search is the fresh computation. *)
Lemma search_miss (query : string) (k : Z) (s : VectorStore)
    (idx : list (list F)) :
  index s = Some idx → chunks s ≠ [] →
  od_lookup (sha256_hexdigest query, k) (data (cache s)) = None →
  (search query k s).1 = fresh_results query k idx (chunks s).
Proof.
  intros Hidx Hcs Hmiss. rewrite search_unfold, Hidx.
  destruct (_ =? 0) eqn:Hlen.
  { destruct (chunks s); [done | simpl in Hlen; lia]. }
  cbv zeta. rewrite (cache_get_miss _ (cache s) Hmiss). simpl.
  by destruct (fresh_results _ _ _ _).
Qed.

Lemma ensure_documents_text (cs : list loc) (h : pyheap) (c : loc) :
  (ensure_documents cs h !!! c : gmap string pyval) !! "text"
  = (h !!! c : gmap string pyval) !! "text".
Proof.
  rewrite ensure_documents_lookup. case_decide; [|done].
  rewrite ensure_document_lookup. by rewrite decide_False.
Qed.

Lemma chunk_texts_outcome (h : pyheap) (cs : list loc) :
  match chunk_texts h cs with
  | Ok texts =>
      Forall2 (λ c t, (h !!! c : gmap string pyval) !! "text" = Some t) cs texts
  | Raise e =>
      e = KeyError "text"
      ∧ ∃ c, c ∈ cs ∧ (h !!! c : gmap string pyval) !! "text" = None
  end.
Proof.
  induction cs as [|c cs IH]; simpl; [constructor |].
  destruct ((h !!! c : gmap string pyval) !! "text") as [t|] eqn:Ht.
  - destruct (chunk_texts h cs) as [texts|e].
    + by constructor.
    + destruct IH as (-> & c' & Hin & Hnone). split; [done |].
      exists c'. split; [by apply list_elem_of_further | done].
  - split; [done |]. exists c. split; [apply list_elem_of_here | done].
Qed.

End StoreLaws.

Section StoreTheorems.
Context `{Backend}.

(** X8: a search, whatever its outcome, changes nothing of the store but
    the cache: index, chunk list and embeddings are as before, and so is
    the capacity of the cache. *)
Theorem search_changes_only_cache (query : string) (k : Z) (s : VectorStore) :
  let r := search query k s in
  index r.2 = index s ∧ chunks r.2 = chunks s
  ∧ embeddings r.2 = embeddings s
  ∧ capacity (cache r.2) = capacity (cache s).
Proof.
  destruct (search_frame query k s) as (? & ? & ? & ? & _). by repeat split.
Qed.

(** X9: a search can only raise what the encoder or the index raises
    (the index does so when asked for [k <= 0] neighbours) or an
    IndexError, and a search that raises leaves every cached answer as
    it was: nothing is stored for the failed query. *)
Theorem failed_search_adds_no_entry (query : string) (k : Z) (s : VectorStore)
    (e : exn) :
  (search query k s).1 = Raise e →
  (e = ExternalError ∨ e = IndexError)
  ∧ ∀ key, od_lookup key (data (cache (search query k s).2))
           = od_lookup key (data (cache s)).
Proof.
  destruct (search_frame query k s) as (_ & _ & _ & _ & Hraise). apply Hraise.
Qed.

(** X10: when the cache has no entry for the query, every chunk of the
    answer is one of the chunks the store currently holds. *)
Theorem search_miss_within_chunks (query : string) (k : Z) (s s1 : VectorStore)
    (r : list result) :
  od_lookup (sha256_hexdigest query, k) (data (cache s)) = None →
  search query k s = (Ok r, s1) →
  ∀ c score, (c, score) ∈ r → c ∈ chunks s.
Proof.
  intros Hmiss Hsearch c score Hin.
  destruct (index s) as [idx|] eqn:Hidx.
  - destruct (decide (chunks s = [])) as [Hcs|Hcs].
    + rewrite search_unbuilt in Hsearch by (by right).
      injection Hsearch as <- _. by apply elem_of_nil in Hin.
    + pose proof (search_miss query k s idx Hidx Hcs Hmiss) as Hfresh.
      rewrite Hsearch in Hfresh. simpl in Hfresh. symmetry in Hfresh.
      unfold fresh_results in Hfresh.
      destruct (encode [VStr query]) as [q_emb|]; [|done].
      destruct (_normalize q_emb) as [|q rest]; [done |].
      destruct (ip_search _ _ _) as [hits|]; [|done].
      by destruct (collect_results_members _ _ _ Hfresh c score Hin).
  - rewrite search_unbuilt in Hsearch by (by left).
    injection Hsearch as <- _. by apply elem_of_nil in Hin.
Qed.

(** X12: the answer inherits the order of the index: if the hits of the
    index are always sorted by some order on scores, then so are the
    scores of every answer that does not come out of the cache. *)
Theorem search_miss_sorted (R : relation F) (query : string) (k : Z)
    (s s1 : VectorStore) (r : list result) :
  (∀ rows q k' hits, ip_search rows q k' = Some hits →
                      StronglySorted R (fst <$> hits)) →
  od_lookup (sha256_hexdigest query, k) (data (cache s)) = None →
  search query k s = (Ok r, s1) →
  StronglySorted R (snd <$> r).
Proof.
  intros Hfaiss Hmiss Hsearch.
  destruct (index s) as [idx|] eqn:Hidx.
  - destruct (decide (chunks s = [])) as [Hcs|Hcs].
    + rewrite search_unbuilt in Hsearch by (by right).
      injection Hsearch as <- _. constructor.
    + pose proof (search_miss query k s idx Hidx Hcs Hmiss) as Hfresh.
      rewrite Hsearch in Hfresh. simpl in Hfresh. symmetry in Hfresh.
      unfold fresh_results in Hfresh.
      destruct (encode [VStr query]) as [q_emb|]; [|done].
      destruct (_normalize q_emb) as [|q rest]; [done |].
      destruct (ip_search _ _ _) as [hits|] eqn:Hhits; [|done].
      eapply StronglySorted_sublist; [|eapply Hfaiss, Hhits].
      by apply (collect_results_scores _ _ _ Hfresh).
  - rewrite search_unbuilt in Hsearch by (by left).
    injection Hsearch as <- _. constructor.
Qed.

(** X13: the outcomes of [create_from_chunks]. When it returns, index and
    embeddings are both the normalised rows the encoder gave for the
    chunk texts. When it raises, it raises KeyError('text') or what the
    encoder raises, and index and embeddings are the ones from before the
    call. In both cases the chunk list is already the new one. *)
Theorem create_from_chunks_outcome (cs : list loc) (h : pyheap)
    (s : VectorStore) :
  let r := create_from_chunks cs (h, s) in
  chunks r.2.2 = cs
  ∧ match r.1 with
    | Ok _ =>
        ∃ texts embs,
          Forall2 (λ c t, (h !!! c : gmap string pyval) !! "text" = Some t)
            cs texts
          ∧ encode texts = Some embs
          ∧ index r.2.2 = Some (_normalize embs)
          ∧ embeddings r.2.2 = Some (_normalize embs)
    | Raise e =>
        (e = KeyError "text" ∨ e = ExternalError)
        ∧ index r.2.2 = index s ∧ embeddings r.2.2 = embeddings s
    end.
Proof.
  unfold create_from_chunks, mbind, M_bind, modify, get_state, lift_outcome,
    lift_option. simpl.
  pose proof (chunk_texts_outcome (ensure_documents cs h) cs) as Htexts.
  destruct (chunk_texts (ensure_documents cs h) cs) as [texts|e]; simpl.
  - destruct (encode texts) as [embs|] eqn:Henc; simpl.
    + split; [done |]. exists texts, embs. split; [|done].
      eapply Forall2_impl; [exact Htexts |]. intros c t Hct.
      cbv beta in Hct |- *. by rewrite ensure_documents_text in Hct.
    + split; [done |]. split; [by right | done].
  - destruct Htexts as [-> _]. split; [done |]. split; [by left | done].
Qed.

(** X14: [create_from_chunks] raises KeyError('text') exactly when some
    chunk of the list has no 'text' entry. *)
Theorem create_from_chunks_key_error (cs : list loc) (h : pyheap)
    (s : VectorStore) :
  (create_from_chunks cs (h, s)).1 = Raise (KeyError "text")
  ↔ ∃ c, c ∈ cs ∧ (h !!! c : gmap string pyval) !! "text" = None.
Proof.
  unfold create_from_chunks, mbind, M_bind, modify, get_state, lift_outcome,
    lift_option. simpl.
  pose proof (chunk_texts_outcome (ensure_documents cs h) cs) as Htexts.
  destruct (chunk_texts (ensure_documents cs h) cs) as [texts|e]; simpl.
  - split.
    + by destruct (encode texts).
    + intros (c & Hin & Hnone). exfalso.
      apply list_elem_of_lookup in Hin as [i Hi].
      destruct (Forall2_lookup_l _ _ _ _ _ Htexts Hi) as (t & _ & Ht).
      cbv beta in Ht. rewrite ensure_documents_text in Ht. congruence.
  - destruct Htexts as (-> & c & Hin & Hnone). split; [|done].
    intros _. exists c. split; [done |]. by rewrite ensure_documents_text in Hnone.
Qed.

(** X15: a rebuild that follows [clear] starts from an empty cache, so
    every search on the rebuilt store is computed from the new index and
    the new chunks. *)
Theorem clear_then_rebuild_is_fresh (cs : list loc) (h : pyheap)
    (s : VectorStore) (query : string) (k : Z) (idx : list (list F)) :
  let rebuilt := (create_from_chunks cs (h, (clear s).2)).2.2 in
  index rebuilt = Some idx → chunks rebuilt ≠ [] →
  (search query k rebuilt).1 = fresh_results query k idx (chunks rebuilt).
Proof.
  intros rebuilt Hidx Hcs. apply search_miss; try done.
  destruct (create_from_chunks_state cs h (clear s).2) as (_ & _ & Hcache).
  fold rebuilt in Hcache. by rewrite Hcache.
Qed.

End StoreTheorems.

Section ToyIndex.

Lemma toy_index_length (rows : list (list Z)) (q : list Z) (k : Z)
    (hits : list (Z * Z)) :
  Toy.flat_ip_search rows q k = Some hits →
  Z.of_nat (length hits) ≤ Z.max 0 k.
Proof.
  unfold Toy.flat_ip_search. destruct (k <=? 0); [done |].
  intros [= <-]. rewrite length_take. lia.
Qed.

Lemma insert_hit_sorted (hit : Z * Z) (l : list (Z * Z)) :
  StronglySorted (λ a b : Z * Z, b.1 ≤ a.1) l →
  StronglySorted (λ a b : Z * Z, b.1 ≤ a.1) (Toy.insert_hit hit l)
  ∧ ∀ x, x ∈ Toy.insert_hit hit l → x = hit ∨ x ∈ l.
Proof.
  induction 1 as [|hit' l Hsorted [IHs IHm] Hall]; simpl.
  - split; [repeat constructor |]. intros x ?%list_elem_of_singleton. by left.
  - destruct (hit'.1 <? hit.1) eqn:Hlt.
    + split.
      * constructor; [by constructor |]. apply Z.ltb_lt in Hlt.
        constructor; [lia |]. eapply Forall_impl; [exact Hall |].
        simpl. intros x ?. lia.
      * intros x [->|Hin]%elem_of_cons; [by left | by right].
    + split.
      * constructor; [done |]. apply Z.ltb_ge in Hlt.
        apply Forall_forall. intros x Hx. destruct (IHm x Hx) as [->|Hin]; [done |].
        rewrite Forall_forall in Hall. by apply Hall.
      * intros x [->|Hin]%elem_of_cons.
        -- right. apply list_elem_of_here.
        -- destruct (IHm x Hin) as [->|?]; [by left |].
           right. by apply list_elem_of_further.
Qed.

Lemma toy_index_sorted (rows : list (list Z)) (q : list Z) (k : Z)
    (hits : list (Z * Z)) :
  Toy.flat_ip_search rows q k = Some hits →
  StronglySorted (λ a b : Z, b ≤ a) (fst <$> hits).
Proof.
  unfold Toy.flat_ip_search. destruct (k <=? 0); [done |].
  intros [= <-].
  assert (Hfold : ∀ hits acc,
    StronglySorted (λ a b : Z * Z, b.1 ≤ a.1) acc →
    StronglySorted (λ a b : Z * Z, b.1 ≤ a.1)
      (foldl (λ acc hit, Toy.insert_hit hit acc) acc hits)).
  { induction hits as [|hit hits IH]; intros acc Hacc; [done |].
    simpl. apply IH. by apply insert_hit_sorted. }
  apply (StronglySorted_fmap fst (λ a b : Z * Z, b.1 ≤ a.1));
    [by intros a b ? |].
  eapply StronglySorted_sublist; [apply sublist_take |].
  apply Hfold. constructor.
Qed.

End ToyIndex.

Section StoreRuns.

Lemma search_twice_same_witness :
  let s1 := (@search Toy.backend "q" 2 Toy.example_built.2).2 in
  ∃ s2, @search Toy.backend "q" 2 s1 = (Ok [(0%nat, 11); (1%nat, 3)], s2).
Proof.
  intros s1.
  apply (@search_twice_same Toy.backend "q" 2 Toy.example_built.2 s1).
  vm_compute. reflexivity.
Defined.

Lemma failed_search_adds_no_entry_witness :
  (@search Toy.backend "q" 0 Toy.example_built.2).1 = Raise ExternalError
  ∧ data (cache (@search Toy.backend "q" 0 Toy.example_built.2).2) = []
  ∧ @od_lookup Toy.backend ("q", 0)
      (data (cache (@search Toy.backend "q" 0 Toy.example_built.2).2))
    = @od_lookup Toy.backend ("q", 0) (data (cache Toy.example_built.2)).
Proof.
  split; [vm_compute; reflexivity |]. split; [vm_compute; reflexivity |].
  apply (@failed_search_adds_no_entry Toy.backend "q" 0 Toy.example_built.2
           ExternalError).
  vm_compute. reflexivity.
Defined.

Lemma search_miss_within_chunks_witness :
  (@search Toy.backend "q" 2 Toy.example_built.2).1
  = Ok [(0%nat, 11); (1%nat, 3)]
  ∧ (1%nat : loc) ∈ chunks Toy.example_built.2.
Proof.
  split; [vm_compute; reflexivity |].
  apply (@search_miss_within_chunks Toy.backend "q" 2 Toy.example_built.2
           (@search Toy.backend "q" 2 Toy.example_built.2).2
           [(0%nat, 11); (1%nat, 3)] eq_refl) with (score := 3).
  - vm_compute. reflexivity.
  - apply list_elem_of_further, list_elem_of_here.
Defined.

Lemma search_miss_clamped_witness :
  Z.of_nat (length [(0%nat, 11)]) ≤ Z.max 0 (Z.min 1 2).
Proof.
  apply (@search_miss_clamped Toy.backend "q" 1 Toy.example_built.2
           (@search Toy.backend "q" 1 Toy.example_built.2).2 [(0%nat, 11)]).
  - exact toy_index_length.
  - reflexivity.
  - vm_compute. reflexivity.
Defined.

Lemma search_miss_sorted_witness :
  StronglySorted (λ a b : Z, b ≤ a) [11; 3].
Proof.
  apply (@search_miss_sorted Toy.backend (λ a b : Z, b ≤ a) "q" 2
           Toy.example_built.2
           (@search Toy.backend "q" 2 Toy.example_built.2).2
           [(0%nat, 11); (1%nat, 3)]).
  - exact toy_index_sorted.
  - reflexivity.
  - vm_compute. reflexivity.
Defined.

Lemma clear_then_rebuild_is_fresh_witness :
  let s1 := (@search Toy.backend "q" 2 Toy.example_built.2).2 in
  let rebuilt :=
    (@create_from_chunks Toy.backend [2%nat]
       (Toy.example_built.1, (@clear Toy.backend s1).2)).2.2 in
  (@search Toy.backend "q" 2 rebuilt).1 = Ok [(2%nat, 4)].
Proof.
  intros s1 rebuilt.
  etransitivity.
  - apply (@clear_then_rebuild_is_fresh Toy.backend [2%nat]
             Toy.example_built.1 s1 "q" 2 [[3; 1]]).
    + vm_compute. reflexivity.
    + discriminate.
  - vm_compute. reflexivity.
Defined.

End StoreRuns.

(* ===================================================================== *)
(** * Further properties: the assembled context                           *)
(* ===================================================================== *)

Section StripFacts.

Lemma lstrip_chars_nil (l : list ascii) :
  Py.lstrip_chars l = [] → Forall (λ c, Py.isspace c = true) l.
Proof.
  induction l as [|c l IH]; simpl; [constructor |].
  destruct (Py.isspace c) eqn:Hc; [|done].
  intros Hl. constructor; [done | by apply IH].
Qed.

Lemma lstrip_chars_head (l : list ascii) (c : ascii) (l' : list ascii) :
  Py.lstrip_chars l = c :: l' → Py.isspace c = false.
Proof.
  induction l as [|c0 l IH]; simpl; [done |].
  destruct (Py.isspace c0) eqn:Hc; [done |]. by intros [= <- _].
Qed.

Lemma string_of_list_nil (l : list ascii) :
  string_of_list_ascii l = "" → l = [].
Proof. by destruct l. Qed.

(** [strip] answers with the empty string only for a string of spaces. *)
Lemma strip_empty (s : string) :
  Py.strip s = "" →
  Forall (λ c, Py.isspace c = true) (list_ascii_of_string s).
Proof.
  unfold Py.strip. intros Hs. apply string_of_list_nil in Hs.
  apply (f_equal (@rev ascii)) in Hs. rewrite rev_involutive in Hs. simpl in Hs.
  apply lstrip_chars_nil in Hs.
  destruct (Py.lstrip_chars (list_ascii_of_string s)) as [|c l] eqn:Hl.
  - by apply lstrip_chars_nil.
  - apply lstrip_chars_head in Hl. exfalso.
    simpl in Hs. rewrite Forall_app in Hs. destruct Hs as [_ Hc].
    rewrite Forall_singleton in Hc. congruence.
Qed.

Lemma length_string_of_list (l : list ascii) :
  String.length (string_of_list_ascii l) = length l.
Proof. induction l as [|c l IH]; simpl; [done | by rewrite IH]. Qed.

Lemma length_list_of_string (s : string) :
  length (list_ascii_of_string s) = String.length s.
Proof. induction s as [|c s IH]; simpl; [done | by rewrite IH]. Qed.

Lemma lstrip_chars_length (l : list ascii) :
  (length (Py.lstrip_chars l) ≤ length l)%nat.
Proof.
  induction l as [|c l IH]; simpl; [done |].
  destruct (Py.isspace c); simpl; lia.
Qed.

(** [strip] never makes a string longer. *)
Lemma len_strip (s : string) : Py.len (Py.strip s) ≤ Py.len s.
Proof.
  unfold Py.len, Py.strip.
  rewrite length_string_of_list, length_rev.
  pose proof (lstrip_chars_length
                (rev (Py.lstrip_chars (list_ascii_of_string s)))) as H1.
  rewrite length_rev in H1.
  pose proof (lstrip_chars_length (list_ascii_of_string s)) as H2.
  rewrite length_list_of_string in H2. lia.
Qed.

Lemma len_zero (s : string) : Py.len s = 0 → s = "".
Proof. destruct s; [done |]. unfold Py.len. simpl. lia. Qed.

Lemma slice_to_zero (s : string) : Py.slice_to s 0 = "".
Proof.
  unfold Py.slice_to, Py.slice, Py.clamp. simpl.
  assert (Hmin : Z.min 0 (Py.len s) = 0) by (pose proof (len_nonneg s); lia).
  rewrite Hmin. simpl. by destruct s.
Qed.

End StripFacts.

Section ContextLaws.
Context `{Backend}.

Lemma sum_len_cons (b : string) (bodies : list string) :
  sum_len (b :: bodies) = Py.len b + sum_len bodies.
Proof. done. Qed.

Lemma len_join (sep : string) (parts : list string) :
  Py.len (join sep parts)
  = sum_len parts + Py.len sep * Z.max 0 (Z.of_nat (length parts) - 1).
Proof.
  induction parts as [|p parts IH].
  { change (Py.len "" = 0 + Py.len sep * 0). unfold Py.len. simpl. lia. }
  destruct parts as [|p' parts].
  - change (Py.len p = Py.len p + 0 + Py.len sep * 0). lia.
  - change (join sep (p :: p' :: parts))
      with (p +:+ sep +:+ join sep (p' :: parts)).
    rewrite !len_append, IH. rewrite !sum_len_cons. cbn [length].
    rewrite !Z.max_r by lia. rewrite !Nat2Z.inj_succ. lia.
Qed.

Lemma sum_len_parts (h : pyheap) (used : list result) (bodies : list string) :
  length used = length bodies →
  sum_len (zip_with (part_of h) used bodies)
  = sum_len ((λ r, label_of (h !!! r.1)) <$> used) + sum_len bodies.
Proof.
  revert bodies. induction used as [|r used IH]; intros [|b bodies] Hlen;
    try done.
  rewrite fmap_cons. cbn [zip_with]. rewrite !sum_len_cons.
  unfold part_of at 1. rewrite len_append, IH by (simpl in Hlen; lia).
  lia.
Qed.

(** When every text fits, the loop uses every result in full. *)
Lemma context_loop_all_fit (h : pyheap) (max_context_length : Z) :
  ∀ (results : list result) (txts : list string) (parts0 : list string)
    (srcs0 : list SourceCitation) (cur_len : Z),
    Forall2 (λ r t, (h !!! r.1 : gmap string pyval) !! "text" = Some (VStr t))
      results txts →
    cur_len + sum_len txts < max_context_length →
    context_loop h max_context_length results parts0 srcs0 cur_len
    = Ok (parts0 ++ zip_with (part_of h) results txts,
          srcs0 ++ (cite h <$> results)).
Proof.
  intros results txts parts0 srcs0 cur_len Htxts.
  revert parts0 srcs0 cur_len.
  induction Htxts as [|[c score] t results txts Ht _ IH];
    intros parts0 srcs0 cur_len Hfit.
  - simpl. by rewrite !app_nil_r.
  - simpl in Ht, Hfit. simpl context_loop. rewrite Ht.
    pose proof (sum_len_nonneg txts) as Hnn.
    assert (Hfits : fit_text t cur_len max_context_length = t).
    { unfold fit_text. destruct (_ <? _) eqn:Hcmp; [lia | done]. }
    rewrite Hfits.
    destruct (max_context_length <=? cur_len + Py.len t) eqn:Hfull; [lia |].
    rewrite IH by lia. simpl. by rewrite <- !app_assoc.
Qed.

(** With well-formed chunks the loop never raises. *)
Lemma context_loop_total (h : pyheap) (max_context_length : Z) :
  ∀ (results : list result) (parts0 : list string)
    (srcs0 : list SourceCitation) (cur_len : Z),
    Forall (λ r, ∃ t, (h !!! r.1 : gmap string pyval) !! "text" = Some (VStr t))
      results →
    ∃ out, context_loop h max_context_length results parts0 srcs0 cur_len
           = Ok out.
Proof.
  induction results as [|[c score] results IH];
    intros parts0 srcs0 cur_len Hall; [by eexists |].
  apply Forall_cons in Hall as [[t Ht] Hall]. simpl in Ht.
  simpl context_loop. rewrite Ht.
  destruct (max_context_length <=? _); [by eexists | by apply IH].
Qed.

(** What the loop does with a first result. *)
Lemma context_loop_first (h : pyheap) (max_context_length : Z)
    (r : result) (rest : list result) (parts : list string)
    (srcs : list SourceCitation) :
  context_loop h max_context_length (r :: rest) [] [] 0 = Ok (parts, srcs) →
  ∃ body parts' srcs',
    parts = (label_of (h !!! r.1) +:+ body) :: parts'
    ∧ srcs = cite h r :: srcs'.
Proof.
  destruct r as [c score]. simpl.
  destruct ((h !!! c : gmap string pyval) !! "text") as [[txt| |]|]; try done.
  set (add_txt := fit_text txt 0 max_context_length).
  destruct (max_context_length <=? 0 + Py.len add_txt).
  - intros [= <- <-]. by exists add_txt, [], [].
  - intros Hloop. apply context_loop_spec in Hloop
      as (bodies & _ & -> & -> & _). simpl. by eexists _, _, _.
Qed.

End ContextLaws.

Section ContextTheorems.
Context `{Backend}.

Lemma get_context_unfold (h : pyheap) (query : string)
    (k max_context_length : Z) (s s' : VectorStore) (results : list result) :
  search query k s = (Ok results, s') →
  get_context_for_query h query k max_context_length s =
    if is_nonempty results then
      match context_loop h max_context_length results [] [] 0 with
      | Ok out => (Ok (join part_separator out.1, out.2), s')
      | Raise e => (Raise e, s')
      end
    else (Ok ("", []), s').
Proof.
  intros Hsearch.
  unfold get_context_for_query, mbind, M_bind, lift_outcome, mret, M_ret.
  rewrite Hsearch. destruct (is_nonempty results); [|done].
  by destruct (context_loop _ _ _ _ _ _).
Qed.

Lemma join_head (sep : string) (c : ascii) (p : string) (ps : list string) :
  ∃ rest, join sep (String c p :: ps) = String c rest.
Proof. destruct ps; by eexists. Qed.

(** X16: the context is the empty string exactly when no source is
    returned; a context with sources starts with the '[' of its first
    label, so it is never blank, which is what a caller that tests
    [context.strip()] relies on. *)
Theorem context_empty_iff_no_sources (h : pyheap) (query : string)
    (k max_context_length : Z) (s s' : VectorStore) (ctx : string)
    (srcs : list SourceCitation) :
  get_context_for_query h query k max_context_length s = (Ok (ctx, srcs), s') →
  (ctx = "" ↔ srcs = [])
  ∧ (srcs ≠ [] → (∃ rest, ctx = String "[" rest) ∧ Py.strip ctx ≠ "").
Proof.
  intros Hrun.
  destruct (get_context_inv _ _ _ _ _ _ _ _ Hrun)
    as (results & parts & Hsearch & -> & Hloop).
  destruct results as [|r results].
  - injection Hloop as <- <-. by split.
  - apply context_loop_first in Hloop as (body & parts' & srcs' & -> & ->).
    destruct (join_head part_separator "["
                (str_of (default (VStr "doc")
                           ((h !!! r.1 : gmap string pyval) !! "document"))
                 +:+ " - Page "
                 +:+ str_of (default (VStr "?")
                               ((h !!! r.1 : gmap string pyval) !! "page"))
                 +:+ "]" +:+ newline +:+ body) parts') as [rest Hrest].
    assert (Hctx : join part_separator
                     ((label_of (h !!! r.1) +:+ body) :: parts')
                   = String "[" rest).
    { rewrite <- Hrest. unfold label_of. by rewrite !append_assoc. }
    rewrite Hctx. split; [by split |].
    intros _. split; [by exists rest |].
    intros Hblank. apply strip_empty in Hblank.
    simpl in Hblank. apply Forall_cons in Hblank as [Hspace _].
    discriminate Hspace.
Qed.

(** X17: the length of the context is the length of its labels, plus the
    length of its bodies, plus seven characters of separator between any
    two parts. For a positive budget the bodies have at most
    [max_context_length + 3] characters, which bounds the whole. *)
Theorem context_length_formula (h : pyheap) (query : string)
    (k max_context_length : Z) (s s' : VectorStore) (ctx : string)
    (srcs : list SourceCitation) :
  get_context_for_query h query k max_context_length s = (Ok (ctx, srcs), s') →
  ∃ (results : list result) (bodies : list string),
    search query k s = (Ok results, s')
    ∧ length bodies = length srcs
    ∧ Py.len ctx
      = sum_len ((λ r, label_of (h !!! r.1)) <$> take (length srcs) results)
        + sum_len bodies
        + 7 * Z.max 0 (Z.of_nat (length srcs) - 1)
    ∧ (0 < max_context_length → sum_len bodies ≤ max_context_length + 3).
Proof.
  intros Hrun.
  destruct (get_context_inv _ _ _ _ _ _ _ _ Hrun)
    as (results & parts & Hsearch & -> & Hloop).
  destruct (context_loop_spec _ _ _ _ _ _ _ _ Hloop)
    as (bodies & Hlen & Hparts & Hsrcs & _ & Hsum & _).
  simpl in Hparts, Hsrcs. subst parts srcs.
  exists results, bodies. split; [done |].
  assert (Hn : length (cite h <$> take (length bodies) results) = length bodies).
  { rewrite length_fmap, length_take. lia. }
  split; [done |]. rewrite Hn. split.
  - rewrite len_join, sum_len_parts by (rewrite length_take; lia).
    rewrite length_zip_with, length_take.
    change (Py.len part_separator) with 7. lia.
  - intros Hpos. specialize (Hsum Hpos).
    change (Py.len truncation_marker) with 3 in Hsum. lia.
Qed.

(** X18: when the texts of all results together are shorter than the
    budget, nothing is cut and nothing is left out: the context has one
    part per result, each the label followed by the whole text, and there
    is one citation per result. *)
Theorem context_under_budget_complete (h : pyheap) (query : string)
    (k max_context_length : Z) (s s' : VectorStore) (results : list result)
    (txts : list string) :
  search query k s = (Ok results, s') →
  Forall2 (λ r t, (h !!! r.1 : gmap string pyval) !! "text" = Some (VStr t))
    results txts →
  sum_len txts < max_context_length →
  get_context_for_query h query k max_context_length s
  = (Ok (join part_separator (zip_with (part_of h) results txts),
         cite h <$> results), s').
Proof.
  intros Hsearch Htxts Hfit.
  rewrite (get_context_unfold _ _ _ _ _ _ _ Hsearch).
  destruct results as [|r results].
  - apply Forall2_nil_inv_l in Htxts as ->. done.
  - cbn [is_nonempty].
    by rewrite (context_loop_all_fit h max_context_length _ txts [] [] 0)
      by (done || lia).
Qed.

(** X19: with a budget that is not positive the context is the label of
    the first result alone, without any of its text, and that result is
    the one source. *)
Theorem context_nonpositive_budget (h : pyheap) (query : string)
    (k max_context_length : Z) (s s' : VectorStore) (r : result)
    (rest : list result) (txt : string) :
  max_context_length ≤ 0 →
  search query k s = (Ok (r :: rest), s') →
  (h !!! r.1 : gmap string pyval) !! "text" = Some (VStr txt) →
  get_context_for_query h query k max_context_length s
  = (Ok (label_of (h !!! r.1), [cite h r]), s').
Proof.
  intros Hb Hsearch Htxt.
  rewrite (get_context_unfold _ _ _ _ _ _ _ Hsearch). cbn [is_nonempty].
  destruct r as [c score]. simpl in Htxt. simpl context_loop. rewrite Htxt.
  assert (Hfit : fit_text txt 0 max_context_length = "").
  { unfold fit_text. pose proof (len_nonneg txt).
    destruct (_ <? _) eqn:Hcmp.
    - rewrite Z.max_l by lia. rewrite slice_to_zero.
      destruct (3 <? _) eqn:H3; [lia | done].
    - apply len_zero. lia. }
  rewrite Hfit. change (Py.len "") with 0.
  destruct (max_context_length <=? 0 + 0) eqn:Hfull; [|lia].
  simpl. by rewrite append_empty_r.
Qed.

(** X20: when the search succeeds and every chunk of its answer has a
    string under 'text', [get_context_for_query] returns; it raises no
    KeyError and no TypeError. *)
Theorem context_total_on_text_chunks (h : pyheap) (query : string)
    (k max_context_length : Z) (s s' : VectorStore) (results : list result) :
  search query k s = (Ok results, s') →
  Forall (λ r, ∃ t, (h !!! r.1 : gmap string pyval) !! "text" = Some (VStr t))
    results →
  ∃ ctx srcs,
    get_context_for_query h query k max_context_length s
    = (Ok (ctx, srcs), s').
Proof.
  intros Hsearch Hall.
  rewrite (get_context_unfold _ _ _ _ _ _ _ Hsearch).
  destruct (is_nonempty results); [|by eexists _, _].
  destruct (context_loop_total h max_context_length results [] [] 0 Hall)
    as [[parts srcs] ->].
  by eexists _, _.
Qed.

End ContextTheorems.

Section ContextRuns.

Lemma context_empty_iff_no_sources_witness :
  ∃ ctx srcs s',
    @get_context_for_query Toy.backend Toy.example_built.1 "q" 2 11
      Toy.example_built.2 = (Ok (ctx, srcs), s')
    ∧ Py.strip ctx ≠ "".
Proof.
  edestruct (@context_empty_iff_no_sources Toy.backend Toy.example_built.1
               "q" 2 11 Toy.example_built.2) as [_ Hsources].
  - vm_compute. reflexivity.
  - destruct Hsources as [_ Hstrip]; [discriminate |].
    eexists _, _, _. split; [|exact Hstrip]. vm_compute. reflexivity.
Defined.

Lemma context_length_formula_witness :
  ∃ bodies : list string,
    length bodies = 2%nat ∧ sum_len bodies ≤ 11 + 3.
Proof.
  edestruct (@context_length_formula Toy.backend Toy.example_built.1
               "q" 2 11 Toy.example_built.2)
    as (results & bodies & _ & Hlen & _ & Hsum).
  - vm_compute. reflexivity.
  - exists bodies. split; [exact Hlen | apply Hsum; reflexivity].
Defined.

Lemma context_under_budget_complete_witness :
  @get_context_for_query Toy.backend Toy.example_built.1 "q" 2 3000
    Toy.example_built.2
  = (Ok (join part_separator
           (zip_with (@part_of Toy.backend Toy.example_built.1)
              [(0%nat, 11); (1%nat, 3)] ["abcdefghij"; "xy"]),
         @cite Toy.backend Toy.example_built.1
           <$> [(0%nat, 11); (1%nat, 3)]),
     (@search Toy.backend "q" 2 Toy.example_built.2).2).
Proof.
  apply (@context_under_budget_complete Toy.backend).
  - vm_compute. reflexivity.
  - repeat constructor.
  - reflexivity.
Defined.

Lemma context_nonpositive_budget_witness :
  @get_context_for_query Toy.backend Toy.example_built.1 "q" 2 0
    Toy.example_built.2
  = (Ok (label_of (Toy.example_built.1 !!! 0%nat),
         [@cite Toy.backend Toy.example_built.1 (0%nat, 11)]),
     (@search Toy.backend "q" 2 Toy.example_built.2).2).
Proof.
  apply (@context_nonpositive_budget Toy.backend Toy.example_built.1 "q" 2 0
           Toy.example_built.2 _ (0%nat, 11) [(1%nat, 3)] "abcdefghij").
  - discriminate.
  - vm_compute. reflexivity.
  - reflexivity.
Defined.

Lemma context_total_on_text_chunks_witness :
  ∃ ctx srcs,
    @get_context_for_query Toy.backend Toy.example_built.1 "q" 2 5
      Toy.example_built.2
    = (Ok (ctx, srcs), (@search Toy.backend "q" 2 Toy.example_built.2).2).
Proof.
  apply (@context_total_on_text_chunks Toy.backend Toy.example_built.1 "q" 2 5
           Toy.example_built.2 _ [(0%nat, 11); (1%nat, 3)]).
  - vm_compute. reflexivity.
  - repeat constructor; by eexists.
Defined.

End ContextRuns.

(* ===================================================================== *)
(** * Further properties: the chunker                                     *)
(* ===================================================================== *)

Section ChunkerLaws.

Lemma length_substring_le (n m : nat) (s : string) :
  (String.length (substring n m s) ≤ m)%nat.
Proof.
  revert n m. induction s as [|c s IH]; intros [|n] [|m]; simpl; try lia.
  - specialize (IH 0%nat m). lia.
  - apply (IH n 0%nat).
  - apply (IH n (S m)).
Qed.

(** A slice between non-negative bounds has at most [b - a] characters. *)
Lemma len_slice_le (s : string) (a b : Z) :
  0 ≤ a → 0 ≤ b → Py.len (Py.slice s a b) ≤ Z.max 0 (b - a).
Proof.
  intros Ha Hb. unfold Py.slice.
  set (n := Py.len s). assert (0 ≤ n) by apply len_nonneg.
  pose proof (length_substring_le (Z.to_nat (Py.clamp n a))
                (Z.to_nat (Py.clamp n b - Py.clamp n a)) s) as Hle.
  unfold Py.len at 1. unfold Py.clamp in *.
  destruct (a <? 0) eqn:Ea; [lia |]. destruct (b <? 0) eqn:Eb; lia.
Qed.

Lemma space_run_le (l : list ascii) : (space_run l ≤ length l)%nat.
Proof.
  induction l as [|c l IH]; simpl; [done |]. destruct (Py.isspace c); lia.
Qed.

Lemma finditer_from_bounds (pos : nat) (l : list ascii) (a b : nat) :
  (a, b) ∈ finditer_from pos l → (pos ≤ a < b)%nat ∧ (b ≤ pos + length l)%nat.
Proof.
  revert pos. induction l as [|c l IH]; intros pos; simpl.
  - by intros ?%elem_of_nil.
  - pose proof (space_run_le l).
    destruct (is_terminal c && (0 <? space_run l)%nat).
    + intros [[= -> ->]|Hin]%elem_of_cons; [lia |].
      specialize (IH _ Hin). lia.
    + intros Hin. specialize (IH _ Hin). lia.
Qed.

Lemma last_elem_of {A} (l : list A) (x : A) : last l = Some x → x ∈ l.
Proof.
  induction l as [|y l IH]; [done |]. destruct l as [|z l].
  - intros [= ->]. apply list_elem_of_here.
  - intros Hl. apply list_elem_of_further, IH. exact Hl.
Qed.

(** One iteration: the end of the span that starts at [start]. *)
Lemma chunk_end_bounds (txt : string) (chunk_size start : Z) :
  0 < chunk_size → 0 ≤ start < Py.len txt →
  start < chunk_end txt chunk_size start ≤ Py.len txt
  ∧ chunk_end txt chunk_size start - start ≤ chunk_size + 1.
Proof.
  intros Hsize Hstart. unfold chunk_end.
  destruct (start + chunk_size <? Py.len txt) eqn:Hend; [|lia].
  set (search_start := Z.max start (start + chunk_size - 120)).
  set (snippet := Py.slice txt search_start (start + chunk_size + 1)).
  destruct (last (finditer snippet)) as [[m_start m_end]|] eqn:Hlast; [|lia].
  destruct (Py.int_times_0_4 chunk_size <? _) eqn:Hguard; [|lia].
  apply last_elem_of, finditer_from_bounds in Hlast as [_ Hb].
  rewrite length_list_of_string in Hb.
  pose proof (len_slice_le txt search_start (start + chunk_size + 1)
                ltac:(lia) ltac:(lia)) as Hlen.
  fold snippet in Hlen. unfold Py.len in Hlen at 1.
  assert (0 ≤ Py.int_times_0_4 chunk_size).
  { unfold Py.int_times_0_4. apply Z.quot_pos; lia. }
  lia.
Qed.

(** All candidate spans lie inside the text and are at most one character
    longer than the chunk size, when the overlap allows progress. *)
Lemma chunk_spans_bounds (txt : string) (chunk_size overlap : Z) :
  0 ≤ overlap < chunk_size →
  overlap ≤ Py.int_times_0_4 chunk_size →
  ∀ (fuel : nat) (start : Z) (spans : list (Z * Z)),
    0 ≤ start →
    chunk_spans fuel txt chunk_size overlap start = Some spans →
    ∀ sp, sp ∈ spans →
      0 ≤ sp.1 < sp.2 ∧ sp.2 ≤ Py.len txt ∧ sp.2 - sp.1 ≤ chunk_size + 1.
Proof.
  intros Hov Hguard. induction fuel as [|fuel IH]; intros start spans Hstart;
    [done |].
  simpl. destruct (start <? Py.len txt) eqn:Hlt.
  - pose proof (chunk_end_bounds txt chunk_size start ltac:(lia) ltac:(lia))
      as Hend.
    destruct (Py.len txt <=? chunk_end txt chunk_size start) eqn:Hexit.
    + intros [= <-] sp ->%list_elem_of_singleton. simpl. lia.
    + destruct (chunk_spans fuel _ _ _ _) as [rest|] eqn:Hrest; [|done].
      intros [= <-] sp [->|Hin]%elem_of_cons; [simpl; lia |].
      eapply IH; [|exact Hrest | exact Hin].
      pose proof (chunk_end_advances txt chunk_size overlap start Hov Hguard).
      lia.
  - intros [= <-] sp Hin. by apply elem_of_nil in Hin.
Qed.

(** The candidate spans leave no gap: every offset from [start] on lies
    in one of them. *)
Lemma chunk_spans_cover (txt : string) (chunk_size overlap : Z) :
  0 ≤ overlap →
  ∀ (fuel : nat) (start : Z) (spans : list (Z * Z)),
    chunk_spans fuel txt chunk_size overlap start = Some spans →
    ∀ off, start ≤ off < Py.len txt →
      ∃ sp, sp ∈ spans ∧ sp.1 ≤ off < sp.2.
Proof.
  intros Hov. induction fuel as [|fuel IH]; intros start spans; [done |].
  simpl. destruct (start <? Py.len txt) eqn:Hlt.
  - set (e := chunk_end txt chunk_size start).
    destruct (Py.len txt <=? e) eqn:Hexit.
    + intros [= <-] off Hoff. exists (start, e).
      split; [apply list_elem_of_here | simpl; lia].
    + destruct (chunk_spans fuel _ _ _ _) as [rest|] eqn:Hrest; [|done].
      intros [= <-] off Hoff. destruct (decide (off < e)) as [Hin|Hout].
      * exists (start, e). split; [apply list_elem_of_here | simpl; lia].
      * destruct (IH _ _ Hrest off ltac:(lia)) as (sp & Hsp & Hrange).
        exists sp. split; [by apply list_elem_of_further | done].
  - intros _ off Hoff. lia.
Qed.

Lemma get_elem_of (s : string) (i : nat) (c : ascii) :
  String.get i s = Some c →
  c ∈ list_ascii_of_string s ∧ (i < String.length s)%nat.
Proof.
  revert i. induction s as [|c0 s IH]; intros [|i]; simpl; try done.
  - intros [= ->]. split; [apply list_elem_of_here | lia].
  - intros Hget. destruct (IH i Hget). split; [by apply list_elem_of_further | lia].
Qed.

(** A span that contains a character that is not a space is not blank. *)
Lemma span_with_text_not_blank (txt : string) (s e off : Z) (ch : ascii) :
  0 ≤ s ≤ off → off < e →
  String.get (Z.to_nat off) txt = Some ch → Py.isspace ch = false →
  Py.strip (Py.slice txt s e) ≠ "".
Proof.
  intros Hs He Hget Hch Hblank. apply strip_empty in Hblank.
  destruct (get_elem_of _ _ _ Hget) as [_ Hlt].
  assert (Hin : ch ∈ list_ascii_of_string (Py.slice txt s e)).
  { apply (get_elem_of _ (Z.to_nat (off - s))).
    unfold Py.slice, Py.clamp. unfold Py.len.
    destruct (s <? 0) eqn:Es; [lia |]. destruct (e <? 0) eqn:Ee; [lia |].
    rewrite substring_correct1 by lia.
    rewrite <- Hget. f_equal. lia. }
  rewrite Forall_forall in Hblank. specialize (Hblank ch Hin). congruence.
Qed.

Lemma count_words_nonneg (b : bool) (l : list ascii) : 0 ≤ Py.count_words b l.
Proof.
  revert b. induction l as [|c l IH]; intros b; simpl; [done |].
  destruct (Py.isspace c); [apply IH |].
  specialize (IH true). destruct b; lia.
Qed.

Lemma count_words_pos (l : list ascii) (c : ascii) :
  c ∈ l → Py.isspace c = false → 1 ≤ Py.count_words false l.
Proof.
  induction l as [|c0 l IH]; [by intros ?%elem_of_nil |].
  intros Hin Hc. simpl. destruct (Py.isspace c0) eqn:Hc0.
  - apply elem_of_cons in Hin as [->|Hin]; [congruence | by apply IH].
  - pose proof (count_words_nonneg true l). lia.
Qed.

(** A stripped string that is not empty has at least one word. *)
Lemma split_len_strip_pos (s : string) :
  Py.strip s ≠ "" → 1 ≤ Py.split_len (Py.strip s).
Proof.
  unfold Py.strip, Py.split_len. intros Hne.
  rewrite list_ascii_of_string_of_list_ascii.
  destruct (Py.lstrip_chars (rev (Py.lstrip_chars (list_ascii_of_string s))))
    as [|c l] eqn:Hl; [done |].
  apply lstrip_chars_head in Hl.
  apply (count_words_pos _ c); [|done].
  simpl. apply list_elem_of_In, in_or_app. right. by left.
Qed.

Lemma make_chunk_fields (txt : string) (pm : gmap Z Z) (sp : Z * Z) (c : Chunk) :
  chunk_of_span txt pm sp = Some c →
  PdfProcessor.text c = Py.strip (Py.slice txt sp.1 sp.2)
  ∧ PdfProcessor.text c ≠ ""
  ∧ PdfProcessor.page c = default 1 (pm !! (sp.1 + (sp.2 - sp.1) `div` 2))
  ∧ tokens c = Py.split_len (PdfProcessor.text c).
Proof.
  unfold chunk_of_span, make_chunk.
  destruct (Py.strip (Py.slice txt sp.1 sp.2)) as [|ch rest] eqn:Hstrip;
    [done |].
  simpl. intros [= <-]. simpl. by repeat split.
Qed.

Lemma chunk_text_spans (fuel : nat) (txt : string) (pm : gmap Z Z)
    (chunk_size overlap : Z) (chunks : list Chunk) :
  chunk_text fuel txt pm chunk_size overlap = Some chunks →
  ∃ spans, chunk_spans fuel txt chunk_size overlap 0 = Some spans
           ∧ chunks = omap (chunk_of_span txt pm) spans.
Proof.
  unfold chunk_text. rewrite chunk_loop_spans.
  destruct (chunk_spans fuel txt chunk_size overlap 0) as [spans|]; [|done].
  simpl. intros [= <-]. by exists spans.
Qed.

End ChunkerLaws.

Section ChunkerOrder.

Lemma lstrip_chars_spaces (l : list ascii) :
  Forall (λ c, Py.isspace c = true) l → Py.lstrip_chars l = [].
Proof.
  induction 1 as [|c l Hc _ IH]; simpl; [done |]. by rewrite Hc.
Qed.

Lemma strip_spaces (s : string) :
  Forall (λ c, Py.isspace c = true) (list_ascii_of_string s) →
  Py.strip s = "".
Proof.
  intros Hs. unfold Py.strip. by rewrite (lstrip_chars_spaces _ Hs).
Qed.

Lemma substring_Forall (P : ascii → Prop) (s : string) (n m : nat) :
  Forall P (list_ascii_of_string s) →
  Forall P (list_ascii_of_string (substring n m s)).
Proof.
  revert n m. induction s as [|c s IH]; intros [|n] [|m] Hs; simpl;
    try constructor; inversion Hs; subst; auto.
Qed.

(** Every span of a text made of spaces only is blank. *)
Lemma spaces_blank (txt : string) (sp : Z * Z) :
  Forall (λ c, Py.isspace c = true) (list_ascii_of_string txt) →
  blank txt sp.
Proof.
  intros Hs. apply strip_spaces. unfold Py.slice. by apply substring_Forall.
Qed.

Lemma chunk_of_span_blank (txt : string) (pm : gmap Z Z) (sp : Z * Z) :
  blank txt sp → chunk_of_span txt pm sp = None.
Proof.
  unfold blank, chunk_of_span, make_chunk. by intros ->.
Qed.

(** Both ends of the candidate spans grow strictly along the list. *)
Lemma chunk_spans_sorted (txt : string) (chunk_size overlap : Z) :
  0 ≤ overlap < chunk_size →
  overlap ≤ Py.int_times_0_4 chunk_size →
  ∀ (fuel : nat) (start : Z) (spans : list (Z * Z)),
    0 ≤ start →
    chunk_spans fuel txt chunk_size overlap start = Some spans →
    StronglySorted (λ a b : Z * Z, a.1 < b.1 ∧ a.2 < b.2) spans
    ∧ Forall (λ sp, start ≤ sp.1 ∧ chunk_end txt chunk_size start ≤ sp.2) spans.
Proof.
  intros Hov Hguard. induction fuel as [|fuel IH]; intros start spans Hstart;
    [done |].
  simpl. destruct (start <? Py.len txt) eqn:Hlt.
  - set (e := chunk_end txt chunk_size start).
    destruct (Py.len txt <=? e) eqn:Hexit.
    + intros [= <-]. split; repeat constructor; simpl; lia.
    + destruct (chunk_spans fuel _ _ _ _) as [rest|] eqn:Hrest; [|done].
      intros [= <-].
      pose proof (chunk_end_advances txt chunk_size overlap start Hov Hguard
                    ltac:(fold e; lia)) as Hadv. fold e in Hadv.
      destruct (IH (e - overlap) rest ltac:(lia) Hrest) as [Hsorted Hall].
      assert (Hnext : e < chunk_end txt chunk_size (e - overlap)).
      { destruct (decide (chunk_end txt chunk_size (e - overlap) < Py.len txt))
          as [Hin|Hout].
        - pose proof (chunk_end_advances txt chunk_size overlap (e - overlap)
                        Hov Hguard Hin). lia.
        - lia. }
      split.
      * constructor; [done |].
        eapply Forall_impl; [exact Hall |]. intros sp. simpl. lia.
      * constructor; [simpl; lia |].
        eapply Forall_impl; [exact Hall |]. intros sp. simpl. lia.
  - intros [= <-]. split; constructor.
Qed.

Lemma StronglySorted_omap {A B} (R : relation A) (f : A → option B)
    (g : B → A) (l : list A) :
  (∀ x y, f x = Some y → g y = x) →
  StronglySorted R l →
  StronglySorted (λ a b, R (g a) (g b)) (omap f l).
Proof.
  intros Hfg. induction 1 as [|x l Hl IH Hx]; simpl; [constructor |].
  destruct (f x) as [y|] eqn:Hy; [|done].
  constructor; [done |].
  apply Forall_forall. intros b (a & Ha & Hb)%list_elem_of_omap.
  rewrite (Hfg _ _ Hy), (Hfg _ _ Hb).
  rewrite Forall_forall in Hx. by apply Hx.
Qed.

End ChunkerOrder.

Section ChunkerTheorems.

(** X22 (chunk_text, the chunk record). Every chunk the chunker returns
    carries the stripped text of its own span, which is not empty; its
    page is the page-map entry of the span's midpoint, 1 when the map
    has none; and its token count is the number of words of its text,
    which is at least 1. *)
Theorem chunk_fields_from_span (fuel : nat) (txt : string) (pm : gmap Z Z)
    (chunk_size overlap : Z) (chunks : list Chunk) (c : Chunk) :
  chunk_text fuel txt pm chunk_size overlap = Some chunks →
  c ∈ chunks →
  PdfProcessor.text c = Py.strip (Py.slice txt (start_pos c) (end_pos c))
  ∧ PdfProcessor.text c ≠ ""
  ∧ PdfProcessor.page c =
      default 1 (pm !! (start_pos c + (end_pos c - start_pos c) `div` 2))
  ∧ tokens c = Py.split_len (PdfProcessor.text c)
  ∧ 1 ≤ tokens c.
Proof.
  intros (spans & _ & ->)%chunk_text_spans (sp & _ & Hc)%list_elem_of_omap.
  pose proof (make_chunk_span _ _ _ _ Hc) as Hsp.
  destruct (make_chunk_fields _ _ _ _ Hc) as (Htext & Hne & Hpage & Htok).
  rewrite <- Hsp in Htext, Hpage. simpl in Htext, Hpage.
  repeat split; try done.
  rewrite Htok, Htext. apply split_len_strip_pos. by rewrite <- Htext.
Qed.

Lemma chunk_fields_from_span_witness :
  let c := {| PdfProcessor.text := "aa."; PdfProcessor.page := 2;
              start_pos := 0; end_pos := 6; tokens := 1 |} in
  let txt := "  aa. bb.      cc. dd. ee.   " in
  PdfProcessor.text c = Py.strip (Py.slice txt (start_pos c) (end_pos c))
  ∧ PdfProcessor.text c ≠ ""
  ∧ PdfProcessor.page c =
      default 1 ((<[3:=2]> ∅ : gmap Z Z)
                   !! (start_pos c + (end_pos c - start_pos c) `div` 2))
  ∧ tokens c = Py.split_len (PdfProcessor.text c)
  ∧ 1 ≤ tokens c.
Proof.
  intros c txt.
  eapply (chunk_fields_from_span 30 txt (<[3:=2]> ∅) 8 2 _ c);
    [vm_compute; reflexivity | apply list_elem_of_here].
Defined.

(** X23 (chunk_text, span arithmetic). With 0 <= overlap < chunk_size and
    overlap <= int(chunk_size * 0.4), every returned chunk has
    0 <= start_pos < end_pos <= len(text), its span is at most one
    character longer than chunk_size, and so is its text. *)
Theorem chunk_span_within_text (fuel : nat) (txt : string) (pm : gmap Z Z)
    (chunk_size overlap : Z) (chunks : list Chunk) (c : Chunk) :
  0 ≤ overlap < chunk_size →
  overlap ≤ Py.int_times_0_4 chunk_size →
  chunk_text fuel txt pm chunk_size overlap = Some chunks →
  c ∈ chunks →
  0 ≤ start_pos c < end_pos c
  ∧ end_pos c ≤ Py.len txt
  ∧ end_pos c - start_pos c ≤ chunk_size + 1
  ∧ Py.len (PdfProcessor.text c) ≤ chunk_size + 1.
Proof.
  intros Hov Hguard (spans & Hspans & ->)%chunk_text_spans
    (sp & Hsp & Hc)%list_elem_of_omap.
  pose proof (chunk_spans_bounds txt chunk_size overlap Hov Hguard fuel 0 spans
                ltac:(lia) Hspans sp Hsp) as Hb.
  destruct (make_chunk_fields _ _ _ _ Hc) as (Htext & _).
  apply make_chunk_span in Hc. subst sp. simpl in Hb, Htext.
  repeat split; try lia.
  rewrite Htext.
  pose proof (len_strip (Py.slice txt (start_pos c) (end_pos c))).
  pose proof (len_slice_le txt (start_pos c) (end_pos c)
                ltac:(lia) ltac:(lia)).
  lia.
Qed.

Lemma chunk_span_within_text_witness :
  let c := {| PdfProcessor.text := ". bb."; PdfProcessor.page := 1;
              start_pos := 4; end_pos := 13; tokens := 2 |} in
  let txt := "  aa. bb.      cc. dd. ee.   " in
  0 ≤ start_pos c < end_pos c
  ∧ end_pos c ≤ Py.len txt
  ∧ end_pos c - start_pos c ≤ 8 + 1
  ∧ Py.len (PdfProcessor.text c) ≤ 8 + 1.
Proof.
  intros c txt.
  eapply (chunk_span_within_text 30 txt (<[3:=2]> ∅) 8 2 _ c);
    [lia | by vm_compute | vm_compute; reflexivity
    | apply list_elem_of_further, list_elem_of_here].
Defined.

(** X24 (chunk_text, coverage). With 0 <= overlap < chunk_size and
    overlap <= int(chunk_size * 0.4), every character of the text that is
    not white space lies in the span of some returned chunk: dropping
    blank spans loses no text. *)
Theorem chunk_text_covers_text (fuel : nat) (txt : string) (pm : gmap Z Z)
    (chunk_size overlap : Z) (chunks : list Chunk) (off : Z) (ch : ascii) :
  0 ≤ overlap < chunk_size →
  overlap ≤ Py.int_times_0_4 chunk_size →
  chunk_text fuel txt pm chunk_size overlap = Some chunks →
  0 ≤ off →
  String.get (Z.to_nat off) txt = Some ch →
  Py.isspace ch = false →
  ∃ c, c ∈ chunks ∧ start_pos c ≤ off < end_pos c.
Proof.
  intros Hov Hguard (spans & Hspans & ->)%chunk_text_spans Hoff Hget Hch.
  destruct (get_elem_of _ _ _ Hget) as [_ Hlt].
  destruct (chunk_spans_cover txt chunk_size overlap ltac:(lia) fuel 0 spans
              Hspans off ltac:(unfold Py.len; lia)) as (sp & Hsp & Hrange).
  pose proof (chunk_spans_bounds txt chunk_size overlap Hov Hguard fuel 0 spans
                ltac:(lia) Hspans sp Hsp) as Hlow.
  pose proof (span_with_text_not_blank txt sp.1 sp.2 off ch
                ltac:(lia) ltac:(lia) Hget Hch) as Hnb.
  destruct (chunk_of_span txt pm sp) as [c|] eqn:Hc.
  - exists c. split; [apply list_elem_of_omap; by exists sp |].
    apply make_chunk_span in Hc. subst sp. exact Hrange.
  - exfalso. apply Hnb. revert Hc. unfold chunk_of_span, make_chunk.
    by destruct (Py.strip _).
Qed.

End ChunkerTheorems.

Section ChunkerRuns.

Lemma chunk_text_covers_text_witness :
  ∃ c, c ∈ [ {| PdfProcessor.text := "aa. bb."; PdfProcessor.page := 1;
                start_pos := 0; end_pos := 8; tokens := 2 |};
             {| PdfProcessor.text := "b. cc. dd."; PdfProcessor.page := 1;
                start_pos := 5; end_pos := 16; tokens := 3 |};
             {| PdfProcessor.text := "d. ee."; PdfProcessor.page := 1;
                start_pos := 13; end_pos := 19; tokens := 2 |} ]
       ∧ start_pos c ≤ 9 < end_pos c.
Proof.
  eapply (chunk_text_covers_text 10 "aa. bb. cc. dd. ee." ∅ 10 3 _ 9 "c"%char);
    [lia | by vm_compute | vm_compute; reflexivity | lia | reflexivity
    | reflexivity].
Defined.

(** X25 (chunk_text, order). With 0 <= overlap < chunk_size and
    overlap <= int(chunk_size * 0.4), the returned chunks are in text
    order: both start_pos and end_pos grow strictly from each chunk to
    every later one, so no span is returned twice. *)
Theorem chunk_positions_increase (fuel : nat) (txt : string) (pm : gmap Z Z)
    (chunk_size overlap : Z) (chunks : list Chunk) :
  0 ≤ overlap < chunk_size →
  overlap ≤ Py.int_times_0_4 chunk_size →
  chunk_text fuel txt pm chunk_size overlap = Some chunks →
  StronglySorted
    (λ a b, start_pos a < start_pos b ∧ end_pos a < end_pos b) chunks.
Proof.
  intros Hov Hguard (spans & Hspans & ->)%chunk_text_spans.
  destruct (chunk_spans_sorted txt chunk_size overlap Hov Hguard fuel 0 spans
              ltac:(lia) Hspans) as [Hsorted _].
  apply (StronglySorted_omap
           (λ a b : Z * Z, a.1 < b.1 ∧ a.2 < b.2)
           (chunk_of_span txt pm) span_of) in Hsorted; [exact Hsorted |].
  apply make_chunk_span.
Qed.

Lemma chunk_positions_increase_witness :
  StronglySorted
    (λ a b, start_pos a < start_pos b ∧ end_pos a < end_pos b)
    [ {| PdfProcessor.text := "aa. bb."; PdfProcessor.page := 1;
         start_pos := 0; end_pos := 8; tokens := 2 |};
      {| PdfProcessor.text := "b. cc. dd."; PdfProcessor.page := 1;
         start_pos := 5; end_pos := 16; tokens := 3 |};
      {| PdfProcessor.text := "d. ee."; PdfProcessor.page := 1;
         start_pos := 13; end_pos := 19; tokens := 2 |} ].
Proof.
  apply (chunk_positions_increase 10 "aa. bb. cc. dd. ee." ∅ 10 3);
    [lia | by vm_compute | vm_compute; reflexivity].
Defined.

(** X26 (chunk_text, blank input). A text that holds nothing but white
    space, the empty text included, yields no chunk at all. *)
Theorem chunk_text_of_spaces (fuel : nat) (txt : string) (pm : gmap Z Z)
    (chunk_size overlap : Z) (chunks : list Chunk) :
  Forall (λ c, Py.isspace c = true) (list_ascii_of_string txt) →
  chunk_text fuel txt pm chunk_size overlap = Some chunks →
  chunks = [].
Proof.
  intros Hs (spans & _ & ->)%chunk_text_spans.
  induction spans as [|sp spans IH]; [done |].
  simpl. by rewrite (chunk_of_span_blank txt pm sp (spaces_blank txt sp Hs)).
Qed.

Lemma chunk_text_of_spaces_witness :
  chunk_text 5 "    " ∅ 2 0 = Some [] ∧ ([] : list Chunk) = [].
Proof.
  split; [vm_compute; reflexivity |].
  apply (chunk_text_of_spaces 5 "    " ∅ 2 0 []);
    [repeat constructor | vm_compute; reflexivity].
Defined.

Lemma chunk_text_terminates_witness :
  is_Some (chunk_text 20 "aa. bb. cc. dd. ee." ∅ 10 3).
Proof.
  apply (chunk_text_terminates "aa. bb. cc. dd. ee." ∅ 10 3);
    [lia | by vm_compute].
Defined.

End ChunkerRuns.

(* ===================================================================== *)
(** * Further properties: the page map                                    *)
(* ===================================================================== *)

Section PageMapLaws.

(** The flattened text only grows: what a prefix of the document gives is
    followed by the text of the next page and its separator. *)
Lemma extract_text_prefix_len (b : bool) (pre post : list Page) (pg : Page) :
  Py.len (extract_text_from_pdf b pre).1 + Py.len (page_text_of b pg) + 2
  ≤ Py.len (extract_text_from_pdf b (pre ++ pg :: post)).1.
Proof.
  rewrite extract_text_app. cbv zeta. simpl extract_loop.
  set (r0 := extract_text_from_pdf b pre).
  destruct (extract_loop_text b post (1 + Z.of_nat (length pre) + 1)
              (r0.1 +:+ page_text_of b pg +:+ page_separator)
              (map_chars (String.length (page_text_of b pg)) (Py.len r0.1)
                 (1 + Z.of_nat (length pre)) r0.2)
              (Py.len r0.1 + Py.len (page_text_of b pg) + 2)) as [tail ->].
  rewrite !len_append. change (Py.len page_separator) with 2.
  pose proof (len_nonneg tail). lia.
Qed.

Lemma extract_text_snoc (b : bool) (pre : list Page) (pg : Page) :
  let r0 := extract_text_from_pdf b pre in
  extract_text_from_pdf b (pre ++ [pg]) =
    (r0.1 +:+ page_text_of b pg +:+ page_separator,
     map_chars (String.length (page_text_of b pg)) (Py.len r0.1)
       (1 + Z.of_nat (length pre)) r0.2).
Proof. by rewrite extract_text_app. Qed.

(** Every entry of the page map belongs to one page of the document. *)
Lemma page_map_entry_origin (b : bool) (doc : list Page) (off p : Z) :
  (extract_text_from_pdf b doc).2 !! off = Some p →
  ∃ pre pg post,
    doc = pre ++ pg :: post
    ∧ p = Z.of_nat (length pre) + 1
    ∧ Py.len (extract_text_from_pdf b pre).1 ≤ off
    ∧ off < Py.len (extract_text_from_pdf b pre).1 + Py.len (page_text_of b pg).
Proof.
  induction doc as [|pg pre IH] using rev_ind.
  - unfold extract_text_from_pdf. cbn [extract_loop snd].
    by rewrite lookup_empty.
  - rewrite extract_text_snoc. cbn [snd]. rewrite map_chars_lookup.
    case_decide as Hin.
    + intros [= <-]. exists pre, pg, []. unfold Py.len in *.
      repeat split; lia.
    + intros (pre' & pg' & post' & -> & Hp & Hlo & Hhi)%IH.
      exists pre', pg', (post' ++ [pg]).
      rewrite <- app_assoc. by repeat split.
Qed.

Lemma app_cons_longer {A} (pre1 pre2 post1 post2 : list A) (x1 x2 : A) :
  pre1 ++ x1 :: post1 = pre2 ++ x2 :: post2 →
  (length pre2 < length pre1)%nat →
  ∃ mid, pre1 = pre2 ++ x2 :: mid.
Proof.
  revert pre2. induction pre1 as [|a pre1 IH]; intros [|b pre2]; simpl;
    try lia.
  - intros [= <- <-] _. by exists pre1.
  - intros [= <- Heq] Hlen.
    destruct (IH pre2 Heq ltac:(lia)) as [mid ->]. by exists mid.
Qed.

End PageMapLaws.

Section PageMapTheorems.

(** X27 (extract_text_from_pdf, what the page map holds). Every entry
    of the page map is an offset inside the text, its page number lies
    between 1 and the number of pages, and the offset falls inside the
    kept text of exactly that page: the map has no entry for a separator
    and none past the end of the text. *)
Theorem page_map_entries_in_page_text (has_ocr : bool) (doc : list Page)
    (off p : Z) :
  (extract_text_from_pdf has_ocr doc).2 !! off = Some p →
  0 ≤ off < Py.len (extract_text_from_pdf has_ocr doc).1
  ∧ 1 ≤ p ≤ Z.of_nat (length doc)
  ∧ ∃ pre pg post,
      doc = pre ++ pg :: post
      ∧ p = Z.of_nat (length pre) + 1
      ∧ Py.len (extract_text_from_pdf has_ocr pre).1 ≤ off
      ∧ off < Py.len (extract_text_from_pdf has_ocr pre).1
              + Py.len (page_text_of has_ocr pg).
Proof.
  intros (pre & pg & post & -> & -> & Hlo & Hhi)%page_map_entry_origin.
  pose proof (extract_text_prefix_len has_ocr pre post pg).
  pose proof (len_nonneg (extract_text_from_pdf has_ocr pre).1).
  split; [lia |]. split.
  - rewrite length_app. simpl. lia.
  - by exists pre, pg, post.
Qed.

(** X28 (extract_text_from_pdf, page order). Page numbers never go down
    along the text: of two mapped offsets the later one belongs to the
    same page or to a later page. *)
Theorem page_map_monotone (has_ocr : bool) (doc : list Page)
    (off1 off2 p1 p2 : Z) :
  (extract_text_from_pdf has_ocr doc).2 !! off1 = Some p1 →
  (extract_text_from_pdf has_ocr doc).2 !! off2 = Some p2 →
  off1 ≤ off2 →
  p1 ≤ p2.
Proof.
  intros (pre1 & pg1 & post1 & Hdoc1 & -> & Hlo1 & Hhi1)%page_map_entry_origin
         (pre2 & pg2 & post2 & Hdoc2 & -> & Hlo2 & Hhi2)%page_map_entry_origin
         Hle.
  destruct (decide (length pre2 < length pre1)%nat) as [Hlt|]; [|lia].
  exfalso. rewrite Hdoc1 in Hdoc2.
  destruct (app_cons_longer _ _ _ _ _ _ Hdoc2 Hlt) as [mid Hpre].
  pose proof (extract_text_prefix_len has_ocr pre2 mid pg2) as Hgrow.
  rewrite <- Hpre in Hgrow. lia.
Qed.

(** Length of the text (extract_text_from_pdf). The flattened
    text is as long as the kept page texts together plus two separator
    characters per page. *)
Theorem extract_text_length (has_ocr : bool) (doc : list Page) :
  Py.len (extract_text_from_pdf has_ocr doc).1 =
    foldr (λ pg acc, Py.len (page_text_of has_ocr pg) + 2 + acc) 0 doc.
Proof.
  induction doc as [|pg pre IH] using rev_ind; [done |].
  rewrite extract_text_snoc. cbn [fst]. rewrite !len_append, IH.
  change (Py.len page_separator) with 2.
  rewrite foldr_app. simpl.
  generalize (Py.len (page_text_of has_ocr pg)). intros n.
  clear IH. induction pre as [|q pre IH]; simpl; lia.
Qed.

End PageMapTheorems.

Section PageMapRuns.

Lemma page_map_entries_in_page_text_witness :
  let doc := [ {| get_text := "ab"; ocr_text := None |};
               {| get_text := " cd "; ocr_text := None |} ] in
  0 ≤ 5 < Py.len (extract_text_from_pdf false doc).1
  ∧ 1 ≤ 2 ≤ Z.of_nat (length doc)
  ∧ ∃ pre pg post,
      doc = pre ++ pg :: post
      ∧ 2 = Z.of_nat (length pre) + 1
      ∧ Py.len (extract_text_from_pdf false pre).1 ≤ 5
      ∧ 5 < Py.len (extract_text_from_pdf false pre).1
            + Py.len (page_text_of false pg).
Proof.
  intros doc. apply (page_map_entries_in_page_text false doc 5 2).
  vm_compute. reflexivity.
Defined.

Lemma page_map_monotone_witness : 1 ≤ 2.
Proof.
  apply (page_map_monotone false
           [ {| get_text := "ab"; ocr_text := None |};
             {| get_text := " cd "; ocr_text := None |} ] 1 4);
    [vm_compute; reflexivity | vm_compute; reflexivity | lia].
Defined.

End PageMapRuns.

(* ===================================================================== *)
(** * Further properties: snippets                                        *)
(* ===================================================================== *)

Section SnippetLaws.

Lemma rfind_down_bounds (s sub : string) (i : nat) :
  -1 ≤ Py.rfind_down s sub i ≤ Z.of_nat i.
Proof.
  induction i as [|i IH]; simpl; destruct (String.eqb _ sub); lia.
Qed.

(** An occurrence found before the end [e] lies, whole, before it. *)
Lemma rfind_bounds (s sub : string) (e : Z) :
  0 ≤ e → -1 ≤ Py.rfind s sub e ∧ Py.rfind s sub e ≤ e.
Proof.
  intros He. unfold Py.rfind, Py.clamp.
  pose proof (len_nonneg s). pose proof (len_nonneg sub).
  destruct (e <? 0) eqn:Hneg; [lia |].
  destruct (Z.min e (Py.len s) <? Py.len sub) eqn:Hshort; [lia |].
  pose proof (rfind_down_bounds s sub
                (Z.to_nat (Z.min e (Py.len s) - Py.len sub))).
  lia.
Qed.

Lemma snippet_cut_length (txt : string) (max_length : Z) (puncts : list string)
    (s : string) :
  0 ≤ max_length →
  snippet_cut txt max_length puncts = Some s →
  Py.len s ≤ max_length + 1.
Proof.
  intros Hmax. induction puncts as [|punct rest IH]; [done |].
  simpl. destruct (negb _ && _); [|exact IH].
  intros [= <-].
  destruct (rfind_bounds txt punct max_length Hmax) as [Hlo Hhi].
  pose proof (len_strip (Py.slice_to txt (Py.rfind txt punct max_length + 1))).
  pose proof (len_slice_to txt (Py.rfind txt punct max_length + 1) ltac:(lia)).
  lia.
Qed.

End SnippetLaws.

Section SnippetTheorems.

(** X29 (extract_relevant_snippet). For a non-negative max_length the
    snippet is never more than three characters longer than max_length:
    a text that fits is returned as it is, a sentence cut ends before
    max_length, and the fallback adds the three dots to at most
    max_length characters. *)
Theorem snippet_length_bound (txt : string) (max_length : Z) :
  0 ≤ max_length →
  Py.len (extract_relevant_snippet txt max_length) ≤ max_length + 3.
Proof.
  intros Hmax. unfold extract_relevant_snippet.
  destruct (negb (Py.truthy txt)); [unfold Py.len; simpl; lia |].
  destruct (Py.len txt <=? max_length) eqn:Hfit; [lia |].
  destruct (snippet_cut txt max_length snippet_puncts) as [s|] eqn:Hcut.
  - pose proof (snippet_cut_length _ _ _ _ Hmax Hcut). lia.
  - rewrite len_append. change (Py.len "...") with 3.
    pose proof (len_strip (Py.slice_to txt max_length)).
    pose proof (len_slice_to txt max_length Hmax). lia.
Qed.

Lemma snippet_length_bound_witness :
  Py.len (extract_relevant_snippet
            "One two three. Four five six seven eight nine ten." 20) ≤ 20 + 3.
Proof.
  apply (snippet_length_bound
           "One two three. Four five six seven eight nine ten." 20). lia.
Defined.

End SnippetTheorems.

(* ===================================================================== *)
(** * Further properties: from the chunker to the store                   *)
(* ===================================================================== *)

Section Pipeline.
Context `{Backend}.

Lemma heap_of_chunks_lookup (chunks : list Chunk) (i : loc) (ch : Chunk) :
  chunks !! i = Some ch →
  (heap_of_chunks chunks !!! i : gmap string pyval) = chunk_dict ch.
Proof.
  unfold loc in *. intros Hi. unfold heap_of_chunks.
  apply lookup_total_correct.
  rewrite lookup_map_seq_0. by rewrite list_lookup_fmap, Hi.
Qed.

Lemma locs_of_chunks_elem (chunks : list Chunk) (i : loc) :
  i ∈ locs_of_chunks chunks ↔ is_Some (chunks !! i).
Proof.
  unfold loc in *. unfold locs_of_chunks.
  rewrite elem_of_seq, lookup_lt_is_Some. lia.
Qed.

(** X30 (chunk_text into create_from_chunks, as app.py and
    enhanced_features.py chain them). Whatever list of chunks the
    chunker returned, building the store from it never raises KeyError,
    and afterwards every chunk still has its text and is labelled
    "[Unknown - Page p]" with its own page p in a context: the chunker
    sets neither 'document' nor 'doc'. *)
Theorem chunker_output_labelled_unknown (chunks : list Chunk)
    (s : VectorStore) :
  let r := create_from_chunks (locs_of_chunks chunks)
             (heap_of_chunks chunks, s) in
  (∀ key, r.1 ≠ Raise (KeyError key))
  ∧ ∀ (i : loc) (ch : Chunk), chunks !! i = Some ch →
      (r.2.1 !!! i : gmap string pyval) !! "text"
        = Some (VStr (PdfProcessor.text ch))
      ∧ label_of (r.2.1 !!! i)
        = "[Unknown - Page " +:+ pretty (PdfProcessor.page ch) +:+ "]"
            +:+ newline.
Proof.
  intros r.
  destruct (create_from_chunks_state (locs_of_chunks chunks)
              (heap_of_chunks chunks) s) as (Hheap & _ & _).
  fold r in Hheap. split.
  - intros key. subst r.
    unfold create_from_chunks, mbind, M_bind, modify, get_state, lift_outcome,
      lift_option. simpl.
    pose proof (chunk_texts_outcome
                  (ensure_documents (locs_of_chunks chunks)
                     (heap_of_chunks chunks))
                  (locs_of_chunks chunks)) as Htexts.
    destruct (chunk_texts _ _) as [texts|e]; simpl.
    + by destruct (encode texts).
    + destruct Htexts as (_ & c & [ch Hc]%locs_of_chunks_elem & Hnone).
      rewrite ensure_documents_text, (heap_of_chunks_lookup _ _ _ Hc) in Hnone.
      done.
  - intros i ch Hi. rewrite Hheap.
    rewrite ensure_documents_lookup.
    rewrite decide_True by (apply locs_of_chunks_elem; by eexists).
    rewrite (heap_of_chunks_lookup _ _ _ Hi). split; [done |].
    reflexivity.
Qed.

End Pipeline.

Section PipelineRuns.

Lemma chunker_output_labelled_unknown_witness :
  let ch := {| PdfProcessor.text := "aa. bb."; PdfProcessor.page := 1;
               start_pos := 0; end_pos := 8; tokens := 2 |} in
  let r := @create_from_chunks Toy.backend (locs_of_chunks [ch])
             (heap_of_chunks [ch], @init Toy.backend) in
  (r.2.1 !!! (0%nat : loc) : gmap string pyval) !! "text"
    = Some (VStr "aa. bb.")
  ∧ label_of (r.2.1 !!! (0%nat : loc))
    = "[Unknown - Page " +:+ pretty 1 +:+ "]" +:+ newline.
Proof.
  intros ch r.
  exact (proj2 (@chunker_output_labelled_unknown Toy.backend [ch]
                  (@init Toy.backend)) 0%nat ch eq_refl).
Defined.

End PipelineRuns.

Section ContextOverBudget.
Context `{Backend}.

(** A label has at least the eleven characters of its brackets, of
    " - Page " and of the newline that ends it. *)
Lemma len_label_of (d : gmap string pyval) : 11 ≤ Py.len (label_of d).
Proof.
  unfold label_of. rewrite !len_append.
  change (Py.len "[") with 1. change (Py.len " - Page ") with 8.
  change (Py.len "]") with 1. change (Py.len newline) with 1.
  pose proof (len_nonneg (str_of (default (VStr "doc") (d !! "document")))).
  pose proof (len_nonneg (str_of (default (VStr "?") (d !! "page")))).
  lia.
Qed.

(** C1 at its failing inputs: the budget is checked against the chunk
    bodies alone. Whenever the text of the first result is at least as
    long as a positive budget, the context is the label of that result
    followed by the body cut to the budget, and this string is longer
    than the budget plus one truncation marker: the label, at least
    eleven characters, was never counted. *)
Theorem context_longer_than_budget (h : pyheap) (query : string)
    (k max_context_length : Z) (s s' : VectorStore) (r : result)
    (rest : list result) (txt : string) :
  0 < max_context_length →
  search query k s = (Ok (r :: rest), s') →
  (h !!! r.1 : gmap string pyval) !! "text" = Some (VStr txt) →
  max_context_length ≤ Py.len txt →
  let ctx := label_of (h !!! r.1) +:+ fit_text txt 0 max_context_length in
  get_context_for_query h query k max_context_length s
  = (Ok (ctx, [cite h r]), s')
  ∧ max_context_length + Py.len truncation_marker < Py.len ctx.
Proof.
  intros Hpos Hsearch Htxt Hlong ctx. subst ctx.
  assert (Hbody : max_context_length
                  ≤ Py.len (fit_text txt 0 max_context_length)).
  { unfold fit_text. destruct (_ <? _) eqn:Hcmp; [|lia].
    rewrite len_append, Z.max_r, len_slice_to by lia.
    pose proof (len_nonneg (if 3 <? max_context_length - 0
                            then truncation_marker else "")). lia. }
  split.
  - rewrite (get_context_unfold _ _ _ _ _ _ _ Hsearch). cbn [is_nonempty].
    destruct r as [c score]. simpl in Htxt. simpl context_loop. rewrite Htxt.
    destruct (max_context_length <=? 0 + _) eqn:Hfull; [done | lia].
  - rewrite len_append. pose proof (len_label_of (h !!! r.1)).
    change (Py.len truncation_marker) with 3. lia.
Qed.

End ContextOverBudget.

Section ContextOverBudgetRuns.

Lemma context_longer_than_budget_witness :
  @get_context_for_query Toy.backend Toy.example_single.1 "q" 1 5
    Toy.example_single.2
  = (Ok ("[Unknown - Page 1]" +:+ newline +:+ "abcde...",
         [@cite Toy.backend Toy.example_single.1 (0%nat, 11)]),
     (@search Toy.backend "q" 1 Toy.example_single.2).2)
  ∧ 5 + 3 < Py.len ("[Unknown - Page 1]" +:+ newline +:+ "abcde...")
  ∧ Py.len ("[Unknown - Page 1]" +:+ newline +:+ "abcde...") = 27.
Proof.
  destruct (@context_longer_than_budget Toy.backend Toy.example_single.1
              "q" 1 5 Toy.example_single.2
              (@search Toy.backend "q" 1 Toy.example_single.2).2
              (0%nat, 11) [] "abcdefghij")
    as [Hrun Hlen]; [lia | vm_compute; reflexivity | reflexivity
                    | vm_compute; discriminate |].
  split; [exact Hrun |]. split; [exact Hlen | reflexivity].
Defined.

End ContextOverBudgetRuns.

Section PageOfChunk.

(** The gap in the page map reaches the chunks. A document of three
    pages of 500, 798 and 1000 characters, chunked with the default sizes
    1000 and 200: the second chunk spans the offsets 800 to 1800, all of
    them on pages 2 and 3, but its midpoint 1300 is the first separator
    character after page 2, which the map does not list, so the chunk is
    given page 1. *)
Lemma separator_midpoint_cites_first_page :
  let page_of_length n :=
    {| get_text := string_of_list_ascii (repeat "a"%char n);
       ocr_text := None |} in
  let r := extract_text_from_pdf false
             [page_of_length 500%nat; page_of_length 798%nat;
              page_of_length 1000%nat] in
  ((λ c, (start_pos c, end_pos c, PdfProcessor.page c))
     <$> default [] (chunk_text 10 r.1 r.2 1000 200)) !! 1%nat
  = Some (800, 1800, 1)
  ∧ r.2 !! 800 = Some 2 ∧ r.2 !! 1299 = Some 2
  ∧ r.2 !! 1300 = None ∧ r.2 !! 1301 = None
  ∧ r.2 !! 1302 = Some 3 ∧ r.2 !! 1799 = Some 3.
Proof. vm_compute. repeat split. Qed.

End PageOfChunk.
